(** * Tic-tac-toe server: rules engine and room manager

    A shallow embedding of [backend/game-engine.js] and
    [backend/room-manager.js] (together with the part of
    [backend/socket-handler.js] that drives the replay vote), and the
    properties of the room lifecycle that follow from the code.

    Conventions of the embedding:
    - a board cell is [null | "X" | "O"]: [option Role], [None] being [null];
    - an array read [board[i]] is the list lookup [board !! i], whose
      [None] is JavaScript's [undefined];
    - the room store [new Map()] is a [gmap string Room]; a room object is
      shared by reference in the source, so a mutation of the room is an
      update of the store at the room's key;
    - [replayVotes], a [Set] of socket identifiers, is a [gset string];
    - an error object [{code, message}] is represented by its code, the
      message being a text fixed by the place that builds it;
    - a call of the manager is one step on the store: the event loop runs
      the synchronous part of a call without interruption, and the two
      [async] functions are taken with their [await] resolved in place. *)

From stdpp Require Import gmap strings list fin_maps.

(** ** Data model *)

Inductive Role := X | O.

Inductive Status := waiting | playing | ended.

Inductive ErrorCode :=
  | ROOM_NOT_FOUND | WRONG_PASSKEY | ROOM_FULL | NOT_YOUR_TURN | CELL_TAKEN
  | GAME_NOT_STARTED | INVALID_PASSKEY | INVALID_ROOM_ID | INVALID_CELL
  | INTERNAL_ERROR | NOT_IN_ROOM | GAME_NOT_ENDED | ALREADY_VOTED.

#[global] Instance Role_eq_dec : EqDecision Role.
Proof. solve_decision. Defined.

#[global] Instance Status_eq_dec : EqDecision Status.
Proof. solve_decision. Defined.

#[global] Instance ErrorCode_eq_dec : EqDecision ErrorCode.
Proof. solve_decision. Defined.

(** A cell of the board: [null] or the mark of a player. *)
Abbreviation Cell := (option Role).

Abbreviation Board := (list Cell).

Record Player := mkPlayer { socketId : string; role : Role }.

Record Room := mkRoom {
  roomId : string;
  passKeyHash : string;
  players : list Player;
  board : Board;
  turn : Role;
  status : Status;
  replayVotes : gset string;
  startingTurn : Role
}.

(** Field assignments [room.f = v]. *)
Definition set_players (ps : list Player) (r : Room) : Room :=
  mkRoom (roomId r) (passKeyHash r) ps (board r) (turn r) (status r)
         (replayVotes r) (startingTurn r).

Definition set_board (b : Board) (r : Room) : Room :=
  mkRoom (roomId r) (passKeyHash r) (players r) b (turn r) (status r)
         (replayVotes r) (startingTurn r).

Definition set_turn (t : Role) (r : Room) : Room :=
  mkRoom (roomId r) (passKeyHash r) (players r) (board r) t (status r)
         (replayVotes r) (startingTurn r).

Definition set_status (s : Status) (r : Room) : Room :=
  mkRoom (roomId r) (passKeyHash r) (players r) (board r) (turn r) s
         (replayVotes r) (startingTurn r).

Definition set_replayVotes (v : gset string) (r : Room) : Room :=
  mkRoom (roomId r) (passKeyHash r) (players r) (board r) (turn r) (status r)
         v (startingTurn r).

Definition set_startingTurn (t : Role) (r : Room) : Room :=
  mkRoom (roomId r) (passKeyHash r) (players r) (board r) (turn r) (status r)
         (replayVotes r) t.

(** [Array(9).fill(null)] *)
Definition emptyBoard : Board := replicate 9 None.

(** ** Game engine ([backend/game-engine.js]) *)

Module Engine.

(** A winning line [[a, b, c]]. *)
Abbreviation Line := (nat * nat * nat)%type.

Definition WINNING_LINES : list Line :=
  [ (0, 1, 2); (3, 4, 5); (6, 7, 8);
    (0, 3, 6); (1, 4, 7); (2, 5, 8);
    (0, 4, 8); (2, 4, 6) ].

(** The test of one line in the loop of [checkWinner]:
    [board[a] && board[a] === board[b] && board[a] === board[c]], and the
    value [board[a]] that is returned when it holds.  [board[a]] is truthy
    exactly when it is a mark. *)
Definition lineWinner (b : Board) (l : Line) : option Role :=
  let '(i, j, k) := l in
  match b !! i with
  | Some (Some r) =>
      if bool_decide (b !! i = b !! j) && bool_decide (b !! i = b !! k)
      then Some r else None
  | _ => None
  end.

(** The loop of [checkWinner], over the lines in the order given. *)
Fixpoint checkWinnerLines (lines : list Line) (b : Board) : option Role :=
  match lines with
  | [] => None
  | l :: rest =>
      match lineWinner b l with
      | Some r => Some r
      | None => checkWinnerLines rest b
      end
  end.

Definition checkWinner (b : Board) : option Role :=
  checkWinnerLines WINNING_LINES b.

(** [board.every(cell => cell !== null)] *)
Definition checkDraw (b : Board) : bool :=
  forallb (λ cell : Cell, bool_decide (cell ≠ None)) b.

Inductive Validation := Valid | Invalid (code : ErrorCode).

(** [validateMove(room, playerRole, index)].  The index is a JavaScript
    number; the socket handler lets only numbers through, and a number
    that is not an integer reads [undefined] from the array, which is the
    [CELL_TAKEN] branch as for an integer beyond the array. *)
Definition validateMove (room : Room) (playerRole : Role) (index : Z)
  : Validation :=
  if bool_decide (status room ≠ playing) then Invalid GAME_NOT_STARTED
  else if bool_decide (turn room ≠ playerRole) then Invalid NOT_YOUR_TURN
  else if bool_decide (index < 0 ∨ index > 8)%Z then Invalid INVALID_CELL
  else if bool_decide (board room !! Z.to_nat index ≠ Some None)
       then Invalid CELL_TAKEN
  else Valid.

(** [room.turn === 'X' ? 'O' : 'X'] *)
Definition getOppositeRole (r : Role) : Role :=
  match r with X => O | O => X end.

(** The [winner] field of the result of [applyMove]:
    ["X" | "O" | "draw" | null]. *)
Inductive Winner := NoWinner | Won (r : Role) | Draw.

(** The assignment [board[index] = v] for an integer [index].  Within
    the array it overwrites the cell.  Below 0 JavaScript adds a property
    named by the index to the array object and leaves its cells as they
    are, and so does the model.  At or beyond the length JavaScript grows
    the array, leaving holes before the new cell; a hole is neither
    [null] nor a mark and [Board] cannot hold it, so there the model
    departs from the code and leaves the board as it is.  No caller
    reaches that case: [applyMove] runs only after [validateMove] found
    [null] at the index (see [validateMove_in_range] below). *)
Definition writeCell (b : Board) (index : Z) (v : Cell) : Board :=
  if bool_decide (0 ≤ index)%Z then <[Z.to_nat index := v]> b else b.

(** [applyMove(room, index)]: the room after the move and the result. *)
Definition applyMove (room : Room) (index : Z) : Room * Winner :=
  let room1 :=
    set_board (writeCell (board room) index (Some (turn room))) room in
  match checkWinner (board room1) with
  | Some w => (set_status ended room1, Won w)
  | None =>
      if checkDraw (board room1) then (set_status ended room1, Draw)
      else (set_turn (getOppositeRole (turn room1)) room1, NoWinner)
  end.

(** The rooms a game passes through: it starts on the cleared board, and
    each step is a move of the player whose turn it is, accepted by
    [validateMove] and carried out by [applyMove]. *)
Inductive reachable : Room → Prop :=
  | reachable_start room :
      board room = emptyBoard → reachable room
  | reachable_move room index :
      reachable room →
      validateMove room (turn room) index = Valid →
      reachable (applyMove room index).1.

End Engine.

(** ** Room manager ([backend/room-manager.js]) *)

Module RoomManager.

Import Engine.

(** The in-memory room store, [const rooms = new Map()]. *)
Abbreviation Store := (gmap string Room).

(** How a call ends: with a value, or with an exception (for an [async]
    function, a rejected promise). *)
Inductive JsError := TypeError.

Inductive Completion (A : Type) :=
  | Returned (a : A)
  | Thrown (e : JsError).
Arguments Returned {A} a.
Arguments Thrown {A} e.

Inductive JoinResult :=
  | JoinOk (r : Role) (alreadyJoined : bool)
  | JoinErr (code : ErrorCode).

Inductive MoveResult :=
  | MoveOk (room : Room) (winner : Winner)
  | MoveErr (code : ErrorCode).

Inductive VoteResult :=
  | VoteOk (votes : nat)
  | VoteErr (code : ErrorCode).

Record RemoveResult := mkRemoveResult {
  roomExists : bool;
  hadPlayers : bool;
  remainingPlayers : nat
}.

(** [chars] of [generateRoomId]. *)
Definition chars : string := "ABCDEFGHIJKLMNOPQRSTUVWXYZ0123456789".

(** [s.charAt(i)]: the one-character string at [i], empty out of range. *)
Definition charAt (s : string) (i : nat) : string :=
  match String.get i s with
  | Some c => String c EmptyString
  | None => EmptyString
  end.

(** The loop of [generateRoomId].  [rnd k] stands for the value of
    [Math.floor(Math.random() * chars.length)] at the [k]-th draw of the
    process; the loop appends [n] characters starting at draw [k]. *)
Fixpoint generateLoop (rnd : nat → nat) (n k : nat) (roomId : string)
  : string :=
  match n with
  | 0 => roomId
  | S n' => generateLoop rnd n' (S k) (roomId +:+ charAt chars (rnd k))
  end.

Definition generateRoomId (rnd : nat → nat) (k : nat) : string :=
  generateLoop rnd 6 k "".

(** [players.find(p => p.socketId === socketId)] and the matching
    [findIndex]; [None] is [undefined], respectively [-1]. *)
Definition findPlayer (sid : string) (ps : list Player) : option Player :=
  snd <$> list_find (λ p, socketId p = sid) ps.

Definition findPlayerIndex (sid : string) (ps : list Player) : option nat :=
  fst <$> list_find (λ p, socketId p = sid) ps.

(** [room.players.some(p => p.socketId === socketId)] *)
Definition hasPlayer (sid : string) (room : Room) : bool :=
  existsb (λ p, bool_decide (socketId p = sid)) (players room).

(** [findPlayerRooms(socketId)].  The loop runs over the entries of the
    [Map] in the order of its iteration, which is the order of insertion
    and is not kept by the [gmap]; the entries are given in that order. *)
Fixpoint findPlayerRooms (entries : list (string * Room)) (sid : string)
  : list string :=
  match entries with
  | [] => []
  | (rid, room) :: rest =>
      if hasPlayer sid room then rid :: findPlayerRooms rest sid
      else findPlayerRooms rest sid
  end.

(** [getOpponentSocketId(roomId, socketId)]:
    [room.players.find(p => p.socketId !== socketId)] *)
Definition getOpponentSocketId (rid sid : string) (rooms : gmap string Room)
  : option string :=
  match rooms !! rid with
  | None => None
  | Some room =>
      socketId <$> (snd <$> list_find (λ p, socketId p ≠ sid) (players room))
  end.

Section Manager.

(** The two primitives of [bcryptjs] the manager calls:
    [bcrypt.hash(passKey, 10)] and [bcrypt.compare(passKey, hash)]. *)
Variable bcrypt_hash : string → string.
Variable bcrypt_compare : string → string → bool.

(** [createRoom(passKey, socketId)].  [roomId] is declared [const]: when
    the first identifier is taken, the body of the [while] loop evaluates
    [generateRoomId()] and then fails on the assignment with a
    [TypeError], before anything is stored. *)
Definition createRoom (rnd : nat → nat) (passKey sid : string)
  (rooms : Store) : Store * Completion string :=
  let roomId := generateRoomId rnd 0 in
  if bool_decide (is_Some (rooms !! roomId)) then (rooms, Thrown TypeError)
  else
    let room := {|
      roomId := roomId;
      passKeyHash := bcrypt_hash passKey;
      players := [mkPlayer sid X];
      board := emptyBoard;
      turn := X;
      status := waiting;
      replayVotes := ∅;
      startingTurn := X |} in
    (<[roomId := room]> rooms, Returned roomId).

(** [joinRoom(roomId, passKey, socketId)]; [players.length >= 2] is written
    [2 ≤ length players]. *)
Definition joinRoom (rid passKey sid : string) (rooms : Store)
  : Store * JoinResult :=
  match rooms !! rid with
  | None => (rooms, JoinErr ROOM_NOT_FOUND)
  | Some room =>
      if negb (bcrypt_compare passKey (passKeyHash room))
      then (rooms, JoinErr WRONG_PASSKEY)
      else if bool_decide (2 ≤ length (players room))%nat
      then (rooms, JoinErr ROOM_FULL)
      else
        match findPlayer sid (players room) with
        | Some existingPlayer => (rooms, JoinOk (role existingPlayer) true)
        | None =>
            let r := if bool_decide (length (players room) = 0)
                     then X else O in
            let room1 :=
              set_players (players room ++ [mkPlayer sid r]) room in
            let room2 :=
              if bool_decide (length (players room1) = 2)
              then set_status playing room1 else room1 in
            (<[rid := room2]> rooms, JoinOk r false)
        end
  end.

(** [getRoom(roomId)] *)
Definition getRoom (rid : string) (rooms : Store) : option Room :=
  rooms !! rid.

(** [getPlayerRole(roomId, socketId)] *)
Definition getPlayerRole (rid sid : string) (rooms : Store) : option Role :=
  match rooms !! rid with
  | None => None
  | Some room => role <$> findPlayer sid (players room)
  end.

(** [applyMoveToRoom(roomId, socketId, index)] *)
Definition applyMoveToRoom (rid sid : string) (index : Z) (rooms : Store)
  : Store * MoveResult :=
  match rooms !! rid with
  | None => (rooms, MoveErr ROOM_NOT_FOUND)
  | Some room =>
      match getPlayerRole rid sid rooms with
      | None => (rooms, MoveErr NOT_IN_ROOM)
      | Some playerRole =>
          match validateMove room playerRole index with
          | Invalid code => (rooms, MoveErr code)
          | Valid =>
              let '(room', w) := applyMove room index in
              (<[rid := room']> rooms, MoveOk room' w)
          end
      end
  end.

(** [registerReplayVote(roomId, socketId)] *)
Definition registerReplayVote (rid sid : string) (rooms : Store)
  : Store * VoteResult :=
  match rooms !! rid with
  | None => (rooms, VoteErr ROOM_NOT_FOUND)
  | Some room =>
      if bool_decide (status room ≠ ended)
      then (rooms, VoteErr GAME_NOT_ENDED)
      else if bool_decide (sid ∈ replayVotes room)
      then (rooms, VoteErr ALREADY_VOTED)
      else
        let room' := set_replayVotes ({[sid]} ∪ replayVotes room) room in
        (<[rid := room']> rooms, VoteOk (size (replayVotes room')))
  end.

(** [resetRoom(roomId)] *)
Definition resetRoom (rid : string) (rooms : Store) : Store * option Room :=
  match rooms !! rid with
  | None => (rooms, None)
  | Some room =>
      let room1 := set_board emptyBoard room in
      let room2 :=
        set_startingTurn (getOppositeRole (startingTurn room1)) room1 in
      let room3 := set_turn (startingTurn room2) room2 in
      let room4 := set_replayVotes ∅ room3 in
      let room5 := set_status playing room4 in
      (<[rid := room5]> rooms, Some room5)
  end.

(** [removePlayer(roomId, socketId)]; [players.splice(playerIndex, 1)] is
    the deletion of one element of the list. *)
Definition removePlayer (rid sid : string) (rooms : Store)
  : Store * RemoveResult :=
  match rooms !! rid with
  | None => (rooms, mkRemoveResult false false 0)
  | Some room =>
      match findPlayerIndex sid (players room) with
      | None => (rooms, mkRemoveResult true false (length (players room)))
      | Some playerIndex =>
          let room1 := set_players (delete playerIndex (players room)) room in
          if bool_decide (length (players room1) = 0)
          then (delete rid rooms, mkRemoveResult false true 0)
          else
            let room2 := set_status waiting room1 in
            let room3 := set_board emptyBoard room2 in
            let room4 := set_turn X room3 in
            let room5 := set_replayVotes ∅ room4 in
            (<[rid := room5]> rooms,
             mkRemoveResult true true (length (players room5)))
      end
  end.

(** What the [replay_request] listener of [socket-handler.js] does to the
    store: an empty [roomId] is turned down ([!roomId]); otherwise the
    listener registers the vote and, when the vote count it gets back is
    2, resets the room. *)
Definition replayRequest (rid sid : string) (rooms : Store) : Store :=
  if bool_decide (rid = "") then rooms
  else
    let '(rooms1, result) := registerReplayVote rid sid rooms in
    match result with
    | VoteErr _ => rooms1
    | VoteOk votes =>
        if bool_decide (votes = 2) then (resetRoom rid rooms1).1 else rooms1
    end.

(** The operations the manager exports that write to the store. *)
Inductive Operation :=
  | OpCreate (rnd : nat → nat) (passKey sid : string)
  | OpJoin (rid passKey sid : string)
  | OpMove (rid sid : string) (index : Z)
  | OpVote (rid sid : string)
  | OpReset (rid : string)
  | OpRemove (rid sid : string).

Definition perform (op : Operation) (rooms : Store) : Store :=
  match op with
  | OpCreate rnd passKey sid => (createRoom rnd passKey sid rooms).1
  | OpJoin rid passKey sid => (joinRoom rid passKey sid rooms).1
  | OpMove rid sid index => (applyMoveToRoom rid sid index rooms).1
  | OpVote rid sid => (registerReplayVote rid sid rooms).1
  | OpReset rid => (resetRoom rid rooms).1
  | OpRemove rid sid => (removePlayer rid sid rooms).1
  end.

Definition performAll (ops : list Operation) (rooms : Store) : Store :=
  foldl (λ s op, perform op s) rooms ops.

End Manager.

End RoomManager.

(** ** Sequences of calls and store invariants *)

Section Runs.

Import Engine RoomManager.

(** [registerReplayVote] called for each socket of [sids] in turn. *)
Definition registerAll (rid : string) (sids : list string) (rooms : Store)
  : Store :=
  foldl (λ s sid, (registerReplayVote rid sid s).1) rooms sids.

(** The [replay_request] listener run for each socket of [sids] in turn. *)
Definition replayRequests (rid : string) (sids : list string) (rooms : Store)
  : Store :=
  foldl (λ s sid, replayRequest rid sid s) rooms sids.

(** [room.replayVotes] of the room stored under [rid] (empty when there
    is none). *)
Definition votesOf (rid : string) (rooms : Store) : gset string :=
  match rooms !! rid with
  | Some room => replayVotes room
  | None => ∅
  end.

(** No room of the store has an empty [players] array. *)
Definition noEmptyRoom (rooms : Store) : Prop :=
  ∀ rid room, rooms !! rid = Some room → players room ≠ [].

(** [sid] is the socket of one of the players. *)
Definition isMember (sid : string) (room : Room) : Prop :=
  ∃ p, p ∈ players room ∧ socketId p = sid.

End Runs.

(** ** Measures and invariants *)

Section Invariants.

Import Engine RoomManager.

(** The number of cells that hold the mark of [r]. *)
Definition countMark (r : Role) (b : Board) : nat :=
  length (filter (λ cell : Cell, cell = Some r) b).

(** A cleared board with one mark on it. *)
Definition oneMark (b : Board) : Prop :=
  ∃ i r, i < 9 ∧ b = <[i := Some r]> emptyBoard.

(** What holds of every room the manager keeps under [rid]: it is stored
    under its own identifier; it has one or two players, with different
    sockets; its board has nine cells; it has replay votes only when its
    game has ended; while its game is on nobody has won; and while it has
    a single player its game has not ended and its board is cleared, or
    has one mark and waits for a role no player has. *)
Definition roomOk (rid : string) (room : Room) : Prop :=
  roomId room = rid ∧
  0 < length (players room) ≤ 2 ∧
  NoDup (socketId <$> players room) ∧
  length (board room) = 9 ∧
  (status room ≠ ended → replayVotes room = ∅) ∧
  (status room = playing → checkWinner (board room) = None) ∧
  (length (players room) < 2 →
   status room ≠ ended ∧
   (board room = emptyBoard ∨
    (oneMark (board room) ∧ ∀ p, p ∈ players room → role p ≠ turn room))).

Definition storeOk (rooms : Store) : Prop :=
  ∀ rid room, rooms !! rid = Some room → roomOk rid room.

(** The key of the store an operation works on; for [createRoom] it is
    the identifier drawn first. *)
Definition opRoom (op : Operation) : string :=
  match op with
  | OpCreate rnd _ _ => generateRoomId rnd 0
  | OpJoin rid _ _ => rid
  | OpMove rid _ _ => rid
  | OpVote rid _ => rid
  | OpReset rid => rid
  | OpRemove rid _ => rid
  end.

End Invariants.

(** ** Socket handler ([backend/socket-handler.js])

    The listeners other than [join_room] are modelled for payloads of
    the documented shape: the room identifier and the pass key are
    strings, the cell index is an integer.  The [join_room] listener is
    modelled for any payload, and with the suspension of [joinRoom] at
    [await bcrypt.compare]: see [JoinData] and [Resumption].  What a
    listener sends is the list of its [emit] calls in order;
    [socket.join] and [socket.leave], which belong to the transport, are
    left out. *)

Module SocketHandler.

Import Engine RoomManager.

Inductive Event :=
  | EvError (code : ErrorCode)
  | EvRoomCreated (rid : string)
  | EvGameStart (b : Board) (t : Role) (r : Role)
  | EvBoardUpdate (b : Board) (t : Role) (w : Winner)
  | EvReplayVote (votes : nat)
  | EvPlayerLeft.

(** [socket.emit] and [io.to(socketId).emit] reach one socket;
    [io.to(roomId).emit] is addressed to a room of the transport. *)
Inductive Emit :=
  | ToSocket (sid : string) (ev : Event)
  | ToRoom (rid : string) (ev : Event).

(** The [game_start] message built from a room for a role. *)
Definition gameStart (room : Room) (r : Role) : Event :=
  EvGameStart (board room) (turn room) r.

(** [room.players.forEach(player => io.to(player.socketId).emit(
    'game_start', {board, turn, role: player.role}))] *)
Definition gameStartAll (room : Room) : list Emit :=
  map (λ p, ToSocket (socketId p) (gameStart room (role p))) (players room).

(** The [make_move] listener. *)
Definition onMakeMove (sid rid : string) (index : Z) (rooms : Store)
  : Store * list Emit :=
  if bool_decide (rid = "")
  then (rooms, [ToSocket sid (EvError INVALID_ROOM_ID)])
  else if bool_decide (index < 0 ∨ index > 8)%Z
  then (rooms, [ToSocket sid (EvError INVALID_CELL)])
  else
    match applyMoveToRoom rid sid index rooms with
    | (rooms', MoveErr code) => (rooms', [ToSocket sid (EvError code)])
    | (rooms', MoveOk room w) =>
        (rooms', [ToRoom rid (EvBoardUpdate (board room) (turn room) w)])
    end.


(** The body shared by the [leave_room] listener and the loop of the
    [disconnect] listener: look the opponent up, remove the player, and
    tell the opponent ([opponentSocketId && result.hadPlayers]; an empty
    string is falsy). *)
Definition leaveStep (sid rid : string) (rooms : Store) : Store * list Emit :=
  let opponentSocketId := getOpponentSocketId rid sid rooms in
  let '(rooms', result) := removePlayer rid sid rooms in
  match opponentSocketId with
  | Some o =>
      if bool_decide (o ≠ "") && hadPlayers result
      then (rooms', [ToSocket o EvPlayerLeft])
      else (rooms', [])
  | None => (rooms', [])
  end.

(** The [leave_room] listener. *)
Definition onLeaveRoom (sid rid : string) (rooms : Store)
  : Store * list Emit :=
  if bool_decide (rid = "") then (rooms, []) else leaveStep sid rid rooms.

(** The [disconnect] listener; [entries] are the entries of the store in
    the order of its iteration (see [findPlayerRooms]). *)
Definition onDisconnect (entries : list (string * Room)) (sid : string)
  (rooms : Store) : Store * list Emit :=
  foldl (λ acc rid,
           let '(rooms', out) := leaveStep sid rid acc.1 in
           (rooms', acc.2 ++ out))
        (rooms, []) (findPlayerRooms entries sid).

(** A field of a payload as the [join_room] listener tests it: a
    string, or a value of another type ([undefined] when the field is
    missing). *)
Inductive Field :=
  | NotAString
  | Str (s : string).

(** The argument of the [join_room] listener: [undefined] or [null],
    whose destructuring raises a [TypeError], or a value whose fields
    [roomId] and [passKey] can be read. *)
Inductive JoinData :=
  | Nullish
  | Fields (roomId passKey : Field).

(** [joinRoom] fetches the room object, reads its [passKeyHash] and is
    suspended at [await bcrypt.compare(...)]; listeners of other events
    may run before it resumes.  When it resumes, the object it holds is
    either still the one the store has under the identifier ([Kept]: the
    object, and the other entries of the store), or [removePlayer] has
    deleted it from the store ([Dropped]: the object, and the store as it
    is, in which [createRoom] may have put another room under the
    identifier). *)
Inductive Resumption :=
  | Kept (obj : Room) (others : Store)
  | Dropped (obj : Room) (storeNow : Store).

(** The room object [joinRoom] holds, as it is when the function
    resumes. *)
Definition objectAt (w : Resumption) : Room :=
  match w with
  | Kept obj _ => obj
  | Dropped obj _ => obj
  end.

(** The store once the held object has become [obj]: a stored object is
    seen through the store, a deleted one is not. *)
Definition storeWith (rid : string) (w : Resumption) (obj : Room) : Store :=
  match w with
  | Kept _ others => <[rid := obj]> others
  | Dropped _ storeNow => storeNow
  end.

(** The resumption when no listener ran during the suspension. *)
Definition undisturbed (rid : string) (room : Room) (rooms : Store)
  : Resumption :=
  Kept room (delete rid rooms).

Section Handlers.

Variable bcrypt_hash : string → string.
Variable bcrypt_compare : string → string → bool.

(** The [create_room] listener; a rejection of [createRoom] is caught
    and reported as [INTERNAL_ERROR]. *)
Definition onCreateRoom (rnd : nat → nat) (sid passKey : string)
  (rooms : Store) : Store * list Emit :=
  if bool_decide (passKey = "" ∨ String.length passKey < 4 ∨
                  20 < String.length passKey)
  then (rooms, [ToSocket sid (EvError INVALID_PASSKEY)])
  else
    match createRoom bcrypt_hash rnd passKey sid rooms with
    | (rooms', Returned rid) => (rooms', [ToSocket sid (EvRoomCreated rid)])
    | (rooms', Thrown _) => (rooms', [ToSocket sid (EvError INTERNAL_ERROR)])
    end.

(** [joinRoom] from the point where [bcrypt.compare] has resolved:
    [hash] is the [room.passKeyHash] read before the suspension, [room]
    the room object as the function finds it when it resumes;
    [bcrypt.compare], given a string and a hash that [bcrypt.hash]
    made, resolves to a boolean.  The result is the object as the
    function leaves it, and what it returns. *)
Definition joinRoomResumed (passKey hash sid : string) (room : Room)
  : Room * JoinResult :=
  if negb (bcrypt_compare passKey hash)
  then (room, JoinErr WRONG_PASSKEY)
  else if bool_decide (2 ≤ length (players room))%nat
  then (room, JoinErr ROOM_FULL)
  else
    match findPlayer sid (players room) with
    | Some existingPlayer => (room, JoinOk (role existingPlayer) true)
    | None =>
        let r := if bool_decide (length (players room) = 0)
                 then X else O in
        let room1 :=
          set_players (players room ++ [mkPlayer sid r]) room in
        let room2 :=
          if bool_decide (length (players room1) = 2)
          then set_status playing room1 else room1 in
        (room2, JoinOk r false)
    end.

(** The [join_room] listener.  [rooms] is the store when the event
    arrives and [w] the state of things when [joinRoom] resumes; [w] is
    read only on the path that reaches [await bcrypt.compare].  After
    [joinRoom] has returned nothing runs between its last statement and
    the rest of the listener.  A [TypeError], raised by the destructuring
    of a payload that is [undefined] or [null] and by [room.board] or
    [room.status] when [getRoom] gave [null], is caught and answered
    [INTERNAL_ERROR]. *)
Definition onJoinRoom (sid : string) (data : JoinData) (rooms : Store)
  (w : Resumption) : Store * list Emit :=
  match data with
  | Nullish => (rooms, [ToSocket sid (EvError INTERNAL_ERROR)])
  | Fields NotAString _ => (rooms, [ToSocket sid (EvError INVALID_ROOM_ID)])
  | Fields (Str rid) passKey =>
      if bool_decide (rid = "" ∨ String.length rid ≠ 6)
      then (rooms, [ToSocket sid (EvError INVALID_ROOM_ID)])
      else
        match passKey with
        | NotAString => (rooms, [ToSocket sid (EvError INVALID_PASSKEY)])
        | Str pk =>
            if bool_decide (pk = "")
            then (rooms, [ToSocket sid (EvError INVALID_PASSKEY)])
            else
              match rooms !! rid with
              | None => (rooms, [ToSocket sid (EvError ROOM_NOT_FOUND)])
              | Some fetched =>
                  let '(obj, result) :=
                    joinRoomResumed pk (passKeyHash fetched) sid
                                    (objectAt w) in
                  let rooms' := storeWith rid w obj in
                  match result with
                  | JoinErr code => (rooms', [ToSocket sid (EvError code)])
                  | JoinOk r alreadyJoined =>
                      match getRoom rid rooms' with
                      | None =>
                          (rooms', [ToSocket sid (EvError INTERNAL_ERROR)])
                      | Some room =>
                          if alreadyJoined
                          then (rooms', [ToSocket sid (gameStart room r)])
                          else if bool_decide (status room = playing)
                          then (rooms', gameStartAll room)
                          else (rooms', [ToSocket sid (gameStart room r)])
                      end
                  end
              end
        end
  end.

End Handlers.

End SocketHandler.

(** ** Client state ([frontend/js/main.js])

    The handlers are modelled on [gameState], which they alone write, and
    on the calls they make to the rendering and socket modules. *)

Module Client.

Import Engine SocketHandler.

(** [gameState.status]: ['menu' | 'waiting' | 'playing' | 'ended']. *)
Inductive ClientStatus := csMenu | csWaiting | csPlaying | csEnded.

#[global] Instance ClientStatus_eq_dec : EqDecision ClientStatus.
Proof. solve_decision. Defined.

#[global] Instance Winner_eq_dec : EqDecision Winner.
Proof. solve_decision. Defined.

(** [gameState]; the fields carry the prefix [gs_] to keep them apart
    from those of a room.  [None] is [null]. *)
Record GameState := mkGameState {
  gs_roomId : option string;
  gs_passKey : option string;
  gs_role : option Role;
  gs_board : Board;
  gs_turn : option Role;
  gs_status : ClientStatus;
  gs_winner : Winner
}.

(** Calls to the rendering module ([ui.js]) and to the socket module. *)
Inductive Call :=
  | ClearBoard
  | HideResult
  | RenderBoard (b : Board)
  | UpdateTurnIndicator (t : Role) (r : option Role)
  | UpdateRoleIndicator (r : Role)
  | RemoveCelebration
  | AddCelebration
  | ShowScreen (screen : string)
  | ShowResult (w : Winner) (r : option Role)
  | HighlightWinningCells (l : Line)
  | ShowSnackbar (msg : string)
  | MakeMove (rid : option string) (index : nat).

(** [lines] of [findWinningLine]. *)
Definition lines : list Line :=
  [ (0, 1, 2); (3, 4, 5); (6, 7, 8);
    (0, 3, 6); (1, 4, 7); (2, 5, 8);
    (0, 4, 8); (2, 4, 6) ].

(** The loop of [findWinningLine]; its test is that of [checkWinner]. *)
Fixpoint findWinningLineIn (ls : list Line) (b : Board) : option Line :=
  match ls with
  | [] => None
  | l :: rest =>
      match lineWinner b l with
      | Some _ => Some l
      | None => findWinningLineIn rest b
      end
  end.

Definition findWinningLine (b : Board) : option Line :=
  findWinningLineIn lines b.

(** [handleGameStart(data)] for [data = {board, turn, role}]. *)
Definition handleGameStart (b : Board) (t r : Role) (gs : GameState)
  : GameState * list Call :=
  ({| gs_roomId := gs_roomId gs;
      gs_passKey := gs_passKey gs;
      gs_role := Some r;
      gs_board := b;
      gs_turn := Some t;
      gs_status := csPlaying;
      gs_winner := NoWinner |},
   [ClearBoard; HideResult; RenderBoard b; UpdateTurnIndicator t (Some r);
    UpdateRoleIndicator r; RemoveCelebration; ShowScreen "game-screen"]).

(** [handleBoardUpdate(data)] for [data = {board, turn, winner}]. *)
Definition handleBoardUpdate (b : Board) (t : Role) (w : Winner)
  (gs : GameState) : GameState * list Call :=
  let gs1 :=
    {| gs_roomId := gs_roomId gs;
       gs_passKey := gs_passKey gs;
       gs_role := gs_role gs;
       gs_board := b;
       gs_turn := Some t;
       gs_status := gs_status gs;
       gs_winner := w |} in
  if bool_decide (w ≠ NoWinner) then
    let gs2 :=
      {| gs_roomId := gs_roomId gs1;
         gs_passKey := gs_passKey gs1;
         gs_role := gs_role gs1;
         gs_board := gs_board gs1;
         gs_turn := gs_turn gs1;
         gs_status := csEnded;
         gs_winner := gs_winner gs1 |} in
    let highlight :=
      if bool_decide (w ≠ Draw) then
        match findWinningLine b with
        | Some l => [HighlightWinningCells l; AddCelebration]
        | None => []
        end
      else [] in
    (gs2, [RenderBoard b; ShowResult w (gs_role gs2)] ++ highlight)
  else (gs1, [RenderBoard b; UpdateTurnIndicator t (gs_role gs1)]).

(** [handleCellClick(index)]; the index is that of the cell in
    [elements.cells.forEach]. *)
Definition handleCellClick (index : nat) (gs : GameState) : list Call :=
  if bool_decide (gs_status gs ≠ csPlaying) then []
  else if bool_decide (gs_turn gs ≠ gs_role gs)
  then [ShowSnackbar "Wait for your turn"]
  else if bool_decide (gs_board gs !! index ≠ Some None)
  then [ShowSnackbar "Cell already taken"]
  else [MakeMove (gs_roomId gs) index].

(** What a client does with a message of the server. *)
Definition receive (ev : Event) (gs : GameState) : GameState :=
  match ev with
  | EvGameStart b t r => (handleGameStart b t r gs).1
  | EvBoardUpdate b t w => (handleBoardUpdate b t w gs).1
  | _ => gs
  end.

End Client.

(** ** The game on one page

    The script that plays the game on a single page (the text that
    follows the engine in [backend/game-engine.js]): its state is the
    nine cell elements with their text and classes, the turn, the
    [gameOver] flag, the status line, and whether the reset button and
    the celebration are shown. *)

Module LocalGame.

Import Engine.

(** A cell element: its [textContent] ([None] for the empty text), and
    its classes [taken], [x] or [o], and [win]. *)
Record CellView := mkCellView {
  textContent : option Role;
  taken : bool;
  markClass : option Role;
  win : bool
}.

(** The text of the status line. *)
Inductive StatusLine := YourTurn (r : Role) | Wins (r : Role) | DrawGame.

Record Page := mkPage {
  cells : list CellView;
  turn : Role;
  gameOver : bool;
  statusLine : StatusLine;
  resetVisible : bool;
  celebration : bool
}.

(** A cell as [init] creates it. *)
Definition blank : CellView := mkCellView None false None false.

(** [init()]; the class [celebration] of the container is not touched. *)
Definition init (p : Page) : Page :=
  mkPage (replicate 9 blank) X false (YourTurn X) false (celebration p).

(** [winComb] of [checkWin]. *)
Definition winComb : list Line :=
  [ (0, 1, 2); (3, 4, 5); (6, 7, 8);
    (0, 3, 6); (1, 4, 7); (2, 5, 8);
    (0, 4, 8); (2, 4, 6) ].

(** [combo.every(i => cells[i].textContent === player)].  The page has
    nine cells from [init] on, so [cells[i]] exists for the indices of
    [winComb]; an index without a cell counts as no match. *)
Definition comboHolds (cs : list CellView) (player : Role) (combo : Line)
  : bool :=
  let '(i, j, k) := combo in
  forallb (λ n, bool_decide (textContent <$> cs !! n = Some (Some player)))
          [i; j; k].

(** The loop of [checkWin(player)]. *)
Fixpoint checkWinIn (combos : list Line) (cs : list CellView)
  (player : Role) : option Line :=
  match combos with
  | [] => None
  | combo :: rest =>
      if comboHolds cs player combo then Some combo
      else checkWinIn rest cs player
  end.

Definition checkWin (cs : list CellView) (player : Role) : option Line :=
  checkWinIn winComb cs player.

Definition addWin (c : CellView) : CellView :=
  mkCellView (textContent c) (taken c) (markClass c) true.

(** [highlightWinner(combo)] *)
Definition highlightWinner (combo : Line) (cs : list CellView)
  : list CellView :=
  let '(i, j, k) := combo in
  alter addWin k (alter addWin j (alter addWin i cs)).

(** [handleClick(e)] for a click on the cell of index [i]; a click
    reaches the listener only through a cell element, so an index
    without a cell leaves the page as it is. *)
Definition handleClick (i : nat) (p : Page) : Page :=
  if gameOver p then p
  else
    match cells p !! i with
    | None => p
    | Some c =>
        if bool_decide (textContent c ≠ None) || taken c then p
        else
          let cs :=
            <[i := mkCellView (Some (turn p)) true (Some (turn p)) (win c)]>
              (cells p) in
          match checkWin cs (turn p) with
          | Some combo =>
              mkPage (highlightWinner combo cs) (turn p) true
                     (Wins (turn p)) true true
          | None =>
              if forallb taken cs
              then mkPage cs (turn p) true DrawGame true (celebration p)
              else mkPage cs (getOppositeRole (turn p)) false
                          (YourTurn (getOppositeRole (turn p)))
                          (resetVisible p) (celebration p)
          end
    end.

(** The pages the script passes through: [init] runs when the script is
    loaded and on each click on the reset button; otherwise cells are
    clicked. *)
Inductive reachablePage : Page → Prop :=
  | reachable_init p : reachablePage (init p)
  | reachable_click i p : reachablePage p → reachablePage (handleClick i p).

(** The marks shown on the page, as a board of the engine. *)
Definition boardOf (p : Page) : Board := textContent <$> cells p.

End LocalGame.

(** ** Client and server side by side *)

Section Agreement.

Import Engine Client.

(** The copy a client holds agrees with a room of the server for the
    role [r]: same board, same turn, the client knows its role, and it
    takes the game to be on exactly when the room does. *)
Definition inSync (gs : GameState) (room : Room) (r : Role) : Prop :=
  gs_board gs = board room ∧
  gs_turn gs = Some (turn room) ∧
  gs_role gs = Some r ∧
  (gs_status gs = csPlaying ↔ status room = playing).

(** A page of the local game shows the game of a room: same marks, same
    turn, and the page is not over exactly when the game of the room is
    on. *)
Definition shows (p : LocalGame.Page) (room : Room) : Prop :=
  LocalGame.boardOf p = board room ∧
  LocalGame.turn p = turn room ∧
  (LocalGame.gameOver p = false ↔ status room = playing).

(** What a page of the script keeps: nine cells; a cell has the class
    [taken] exactly when it has a text; while the page is not over nobody
    has won. *)
Definition pageOk (p : LocalGame.Page) : Prop :=
  length (LocalGame.cells p) = 9 ∧
  Forall (λ c, LocalGame.taken c = true ↔ LocalGame.textContent c ≠ None)
         (LocalGame.cells p) ∧
  (LocalGame.gameOver p = false → checkWinner (LocalGame.boardOf p) = None).

(** The status line that goes with a result of [applyMove], [t] being
    the role to play next. *)
Definition lineFor (w : Winner) (t : Role) : LocalGame.StatusLine :=
  match w with
  | Won r => LocalGame.Wins r
  | Draw => LocalGame.DrawGame
  | NoWinner => LocalGame.YourTurn t
  end.

End Agreement.

(** ** Sample data *)

Module Sample.

Import Engine RoomManager.

(** A stand-in for bcrypt: the hash of a key is the key behind a marker,
    and a key matches a hash when it hashes to it. *)
Definition hash (passKey : string) : string := "$2a$10$" +:+ passKey.

Definition compare (passKey h : string) : bool :=
  bool_decide (hash passKey = h).

(** Every random draw is 0: each generated identifier is ["AAAAAA"]. *)
Definition zeros : nat → nat := λ _, 0.

(** A store with one room, created by socket ["s1"]. *)
Definition created : Store :=
  (createRoom hash zeros "abcd" "s1" ∅).1.

(** The same room after socket ["s2"] joined: the game is on. *)
Definition joined : Store :=
  (joinRoom compare "AAAAAA" "abcd" "s2" created).1.

(** X plays 0, O plays 1, X plays 4, O plays 2, X plays 8 and wins on the
    diagonal. *)
Definition wonByX : Store :=
  foldl (λ s '(sid, index), (applyMoveToRoom "AAAAAA" sid index s).1) joined
    [("s1", 0%Z); ("s2", 1%Z); ("s1", 4%Z); ("s2", 2%Z); ("s1", 8%Z)].

(** A full board whose first row belongs to X. *)
Definition fullBoardWonByX : Board :=
  [Some X; Some X; Some X;
   Some O; Some O; Some X;
   Some O; Some X; Some O].

(** The eight lines, diagonals first. *)
Definition linesReversed : list Line := reverse WINNING_LINES.

(** The room as [createRoom] stores it. *)
Definition waitingRoom : Room :=
  mkRoom "AAAAAA" (hash "abcd") [mkPlayer "s1" X] emptyBoard X waiting ∅ X.

(** A fresh room whose game is on. *)
Definition freshRoom : Room :=
  mkRoom "AAAAAA" (hash "abcd") [mkPlayer "s1" X; mkPlayer "s2" O]
         emptyBoard X playing ∅ X.

(** The room after X played 0, O played 1, X played 4, O played 2 and X
    played 8. *)
Definition diagonalOfX : Room :=
  foldl (λ room index, (applyMove room index).1) freshRoom
    [0%Z; 1%Z; 4%Z; 2%Z; 8%Z].

(** The store after socket ["s1"], who played X, left the room of
    [joined]: the room is left with the player of role O. *)
Definition leftByX : Store := (removePlayer "AAAAAA" "s1" joined).1.

Definition roomOfO : Room :=
  mkRoom "AAAAAA" (hash "abcd") [mkPlayer "s2" O] emptyBoard X waiting ∅ X.

(** The [gameState] a client starts with, and the one of the client of
    ["s1"] once it got the [game_start] of [freshRoom]. *)
Definition menuState : Client.GameState :=
  Client.mkGameState None None None emptyBoard None Client.csMenu NoWinner.

Definition clientOfX : Client.GameState :=
  (Client.handleGameStart emptyBoard X X menuState).1.

(** The page as the script shows it when loaded. *)
Definition freshPage : LocalGame.Page :=
  LocalGame.init
    (LocalGame.mkPage [] X false (LocalGame.YourTurn X) false false).

(** The calls that build [wonByX] from the empty store. *)
Definition script : list Operation :=
  [OpCreate zeros "abcd" "s1"; OpJoin "AAAAAA" "abcd" "s2";
   OpMove "AAAAAA" "s1" 0; OpMove "AAAAAA" "s2" 1; OpMove "AAAAAA" "s1" 4;
   OpMove "AAAAAA" "s2" 2; OpMove "AAAAAA" "s1" 8].

End Sample.

(** ** Facts about the game engine *)

Module EngineFacts.

Import Engine.

Lemma lineWinner_Some (b : Board) (i j k : nat) (r : Role) :
  lineWinner b (i, j, k) = Some r ↔
  b !! i = Some (Some r) ∧ b !! j = Some (Some r) ∧ b !! k = Some (Some r).
Proof.
  unfold lineWinner. split.
  - destruct (b !! i) as [[r'|]|] eqn:Hi; try discriminate.
    destruct (bool_decide (Some (Some r') = b !! j)) eqn:Hj; simpl;
      try discriminate.
    destruct (bool_decide (Some (Some r') = b !! k)) eqn:Hk; simpl;
      try discriminate.
    apply bool_decide_eq_true in Hj, Hk.
    intros [= ->]. by rewrite <- Hj, <- Hk.
  - intros (-> & -> & ->). by rewrite !bool_decide_eq_true_2.
Qed.

Lemma checkWinnerLines_Some (lines : list Line) (b : Board) (r : Role) :
  checkWinnerLines lines b = Some r →
  ∃ l, l ∈ lines ∧ lineWinner b l = Some r.
Proof.
  induction lines as [|l rest IH]; simpl; [discriminate|].
  destruct (lineWinner b l) as [r'|] eqn:Hl.
  - intros [= ->]. exists l. split; [left | done].
  - intros H. destruct (IH H) as (l' & Hin & Hw).
    exists l'. split; [by right | done].
Qed.

Lemma checkWinnerLines_None (lines : list Line) (b : Board) :
  checkWinnerLines lines b = None ↔ ∀ l, l ∈ lines → lineWinner b l = None.
Proof.
  induction lines as [|l rest IH]; simpl.
  - split; [|done]. intros _ l Hl. by apply elem_of_nil in Hl.
  - destruct (lineWinner b l) as [r'|] eqn:Hl.
    + split; [discriminate|]. intros H.
      specialize (H l (list_elem_of_here _ _)). congruence.
    + rewrite IH. split.
      * intros H l' [->|Hin]%elem_of_cons; auto.
      * intros H l' Hin. apply H. by right.
Qed.

(** A line that wins holds no [null]. *)
Lemma lineWinner_null (b : Board) (i j k : nat) :
  b !! i = Some None ∨ b !! j = Some None ∨ b !! k = Some None →
  lineWinner b (i, j, k) = None.
Proof.
  intros H. destruct (lineWinner b (i, j, k)) as [r|] eqn:Hl; [|done].
  apply lineWinner_Some in Hl as (Hi & Hj & Hk).
  destruct H as [H|[H|H]]; congruence.
Qed.

Lemma checkDraw_true (b : Board) :
  checkDraw b = true ↔ ∀ cell : Cell, cell ∈ b → cell ≠ None.
Proof.
  unfold checkDraw. rewrite forallb_forall. split.
  - intros H cell Hin. apply list_elem_of_In in Hin.
    apply H in Hin. by apply bool_decide_eq_true in Hin.
  - intros H cell Hin. apply bool_decide_eq_true, H.
    by apply list_elem_of_In.
Qed.

(** What [validateMove] has checked when it accepts a move. *)
Lemma validateMove_Valid (room : Room) (playerRole : Role) (index : Z) :
  validateMove room playerRole index = Valid ↔
  status room = playing ∧ turn room = playerRole ∧
  (0 ≤ index ≤ 8)%Z ∧ board room !! Z.to_nat index = Some None.
Proof.
  unfold validateMove. repeat case_bool_decide; split;
    try discriminate; try (intros (? & ? & ? & ?); done || lia).
  intros _. repeat split; try lia.
  - by destruct (decide (status room = playing)).
  - by destruct (decide (turn room = playerRole)).
  - by destruct (decide (board room !! Z.to_nat index = Some None)).
Qed.

(** An accepted move addresses a cell of the array. *)
Lemma validateMove_in_range (room : Room) (playerRole : Role) (index : Z) :
  validateMove room playerRole index = Valid →
  Z.to_nat index < length (board room).
Proof.
  intros (_ & _ & _ & H)%validateMove_Valid. by eapply lookup_lt_Some.
Qed.

(** The board after [applyMove]. *)
Lemma applyMove_board_write (room : Room) (index : Z) :
  board (applyMove room index).1 =
  writeCell (board room) index (Some (turn room)).
Proof.
  unfold applyMove. simpl.
  destruct (checkWinner _); [done|]. by destruct (checkDraw _).
Qed.

Lemma writeCell_insert (b : Board) (index : Z) (v : Cell) :
  (0 ≤ index)%Z → writeCell b index v = <[Z.to_nat index := v]> b.
Proof. intros H. unfold writeCell. by rewrite bool_decide_eq_true_2. Qed.

(** The board after [applyMove] at an index that is not negative. *)
Lemma applyMove_board (room : Room) (index : Z) :
  (0 ≤ index)%Z →
  board (applyMove room index).1 =
  <[Z.to_nat index := Some (turn room)]> (board room).
Proof.
  intros H. by rewrite applyMove_board_write, writeCell_insert.
Qed.

(** [applyMove] at an index that is not negative, with the write spelt
    out. *)
Lemma applyMove_insert (room : Room) (index : Z) :
  (0 ≤ index)%Z →
  applyMove room index =
  let room1 :=
    set_board (<[Z.to_nat index := Some (turn room)]> (board room)) room in
  match checkWinner (board room1) with
  | Some w => (set_status ended room1, Won w)
  | None =>
      if checkDraw (board room1) then (set_status ended room1, Draw)
      else (set_turn (getOppositeRole (turn room1)) room1, NoWinner)
  end.
Proof. intros H. unfold applyMove. by rewrite writeCell_insert. Qed.

(** The result of [applyMove] in terms of the board it leaves. *)
Lemma applyMove_result (room : Room) (index : Z) :
  (applyMove room index).2 =
  match checkWinner (board (applyMove room index).1) with
  | Some w => Won w
  | None =>
      if checkDraw (board (applyMove room index).1) then Draw else NoWinner
  end.
Proof.
  rewrite applyMove_board_write. unfold applyMove. simpl.
  destruct (checkWinner _); [done|]. by destruct (checkDraw _).
Qed.

End EngineFacts.

(** ** The winner and the draw *)

Module EngineClaims.

Import Engine EngineFacts.

(** C10. [checkWinner] answers with a role only when one of the eight
    lines holds that role in its three cells, so its answer is never the
    value of an empty cell taken from the board; when every line has a
    [null] cell the answer is [null], as it is on the cleared board. *)
Theorem checkWinner_only_full_line (b : Board) :
  (∀ r, checkWinner b = Some r →
     ∃ i j k, (i, j, k) ∈ WINNING_LINES ∧
       b !! i = Some (Some r) ∧ b !! j = Some (Some r) ∧
       b !! k = Some (Some r)) ∧
  ((∀ i j k, (i, j, k) ∈ WINNING_LINES →
      b !! i = Some None ∨ b !! j = Some None ∨ b !! k = Some None) →
   checkWinner b = None) ∧
  checkWinner emptyBoard = None.
Proof.
  split; [|split].
  - intros r (l & Hin & Hw)%checkWinnerLines_Some.
    destruct l as [[i j] k]. exists i, j, k.
    split; [done|]. by apply lineWinner_Some.
  - intros H. apply checkWinnerLines_None.
    intros [[i j] k] Hin. apply lineWinner_null. by apply H.
  - reflexivity.
Qed.

Lemma checkWinner_only_full_line_witness :
  (∃ i j k, (i, j, k) ∈ WINNING_LINES ∧
     Sample.fullBoardWonByX !! i = Some (Some X) ∧
     Sample.fullBoardWonByX !! j = Some (Some X) ∧
     Sample.fullBoardWonByX !! k = Some (Some X)) ∧
  checkWinner emptyBoard = None.
Proof.
  split.
  - destruct (checkWinner_only_full_line Sample.fullBoardWonByX) as [H _].
    apply H. reflexivity.
  - destruct (checkWinner_only_full_line emptyBoard) as (_ & H & _).
    apply H. intros i j k Hin. left.
    unfold WINNING_LINES in Hin.
    repeat (apply elem_of_cons in Hin as [[= -> -> ->]|Hin]; [reflexivity|]).
    by apply elem_of_nil in Hin.
Defined.

(** C1, as the spec words it, fails: on a full board whose first row is
    X's, [checkDraw] answers [true] although there is a winner. *)
Lemma checkDraw_ignores_winner :
  ¬ (checkDraw Sample.fullBoardWonByX = true ↔
     (∀ cell : Cell, cell ∈ Sample.fullBoardWonByX → cell ≠ None) ∧
     checkWinner Sample.fullBoardWonByX = None).
Proof.
  intros [H _]. specialize (H eq_refl) as [_ H]. discriminate H.
Qed.

(** C1, amended. [checkDraw] answers [true] exactly when no cell is
    [null]; the winner is looked at by [applyMove], which asks
    [checkDraw] only after [checkWinner] found nobody, so that its result
    is a draw exactly when the board it leaves is full and has no
    winner. *)
Theorem checkDraw_full_board (b : Board) (room : Room) (index : Z) :
  (checkDraw b = true ↔ ∀ cell : Cell, cell ∈ b → cell ≠ None) ∧
  ((applyMove room index).2 = Draw ↔
   (∀ cell : Cell, cell ∈ board (applyMove room index).1 → cell ≠ None) ∧
   checkWinner (board (applyMove room index).1) = None).
Proof.
  split; [apply checkDraw_true|].
  rewrite applyMove_result, <- checkDraw_true.
  destruct (checkWinner _) as [w|].
  - split; [discriminate|]. by intros [_ ?].
  - destruct (checkDraw _); split; try done. by intros [? _].
Qed.

(** On a board where the winning lines all belong to one role, the order
    of the scan does not matter. *)
Lemma checkWinnerLines_perm (b : Board) (r : Role) (ls1 ls2 : list Line) :
  ls1 ≡ₚ ls2 →
  (∀ l r', l ∈ ls2 → lineWinner b l = Some r' → r' = r) →
  checkWinnerLines ls1 b = checkWinnerLines ls2 b.
Proof.
  intros Hp Hu.
  destruct (checkWinnerLines ls2 b) as [r2|] eqn:H2.
  - destruct (checkWinnerLines ls1 b) as [r1|] eqn:H1.
    + apply checkWinnerLines_Some in H1 as (l1 & Hin1 & Hw1).
      apply checkWinnerLines_Some in H2 as (l2 & Hin2 & Hw2).
      rewrite Hp in Hin1.
      by rewrite (Hu _ _ Hin1 Hw1), (Hu _ _ Hin2 Hw2).
    + apply checkWinnerLines_Some in H2 as (l2 & Hin2 & Hw2).
      rewrite <- Hp in Hin2.
      rewrite checkWinnerLines_None in H1. rewrite (H1 _ Hin2) in Hw2.
      discriminate.
  - apply checkWinnerLines_None. intros l Hin. rewrite Hp in Hin.
    rewrite checkWinnerLines_None in H2. by apply H2.
Qed.

(** A mark put on a board changes the verdict on a line only in favour
    of that mark. *)
Lemma lineWinner_insert (b : Board) (n : nat) (t r : Role) (l : Line) :
  n < length b →
  lineWinner (<[n := Some t]> b) l = Some r →
  r = t ∨ lineWinner b l = Some r.
Proof.
  intros Hn. destruct l as [[i j] k].
  rewrite !lineWinner_Some. intros (Hi & Hj & Hk).
  destruct (decide (n = i)) as [->|Hni].
  { rewrite list_lookup_insert_eq in Hi by done. left. congruence. }
  destruct (decide (n = j)) as [->|Hnj].
  { rewrite list_lookup_insert_eq in Hj by done. left. congruence. }
  destruct (decide (n = k)) as [->|Hnk].
  { rewrite list_lookup_insert_eq in Hk by done. left. congruence. }
  right. by rewrite list_lookup_insert_ne in Hi, Hj, Hk by done.
Qed.

(** While the game is on nobody has won, and at any time the winning
    lines of the board belong to a single role. *)
Lemma reachable_one_winner (room : Room) :
  reachable room →
  (status room = playing → checkWinner (board room) = None) ∧
  ∃ r, ∀ l r', l ∈ WINNING_LINES →
    lineWinner (board room) l = Some r' → r' = r.
Proof.
  induction 1 as [room Hb|room index Hr [IHp _] Hv].
  - rewrite Hb. split; [done|]. exists X. intros [[i j] k] r' _.
    rewrite lineWinner_Some. intros (Hi & _).
    unfold emptyBoard in Hi. apply lookup_replicate in Hi as [? _].
    discriminate.
  - pose proof (validateMove_in_range _ _ _ Hv) as Hlt.
    apply validateMove_Valid in Hv as (Hs & _ & Hi & _).
    specialize (IHp Hs). unfold checkWinner in IHp.
    rewrite checkWinnerLines_None in IHp.
    split.
    + unfold applyMove. simpl.
      destruct (checkWinner _) eqn:Hw; simpl; [discriminate|].
      destruct (checkDraw _); simpl; [discriminate|done].
    + exists (turn room). intros l r' Hin. rewrite applyMove_board by lia.
      intros [->|Hold]%lineWinner_insert; [done| |done].
      rewrite (IHp _ Hin) in Hold. discriminate.
Qed.

(** C8. On every board a game can reach, scanning the eight lines in any
    order gives the answer of [checkWinner]. *)
Theorem checkWinner_scan_order (room : Room) (lines : list Line) :
  reachable room →
  lines ≡ₚ WINNING_LINES →
  checkWinnerLines lines (board room) = checkWinner (board room).
Proof.
  intros [_ [r Hr]]%reachable_one_winner Hp.
  by apply checkWinnerLines_perm with r.
Qed.

Lemma checkWinner_scan_order_witness :
  checkWinnerLines Sample.linesReversed (board Sample.diagonalOfX) = Some X ∧
  checkWinner (board Sample.diagonalOfX) = Some X.
Proof.
  assert (Hr : reachable Sample.diagonalOfX).
  { unfold Sample.diagonalOfX. cbn [foldl].
    do 5 (apply reachable_move; [|reflexivity]).
    apply reachable_start. reflexivity. }
  assert (Hp : Sample.linesReversed ≡ₚ WINNING_LINES)
    by apply reverse_Permutation.
  rewrite (checkWinner_scan_order Sample.diagonalOfX Sample.linesReversed
             Hr Hp).
  split; reflexivity.
Defined.

End EngineClaims.

(** ** Facts about the room manager *)

Module ManagerFacts.

Import Engine EngineFacts RoomManager.

Lemma findPlayer_Some (sid : string) (ps : list Player) (p : Player) :
  findPlayer sid ps = Some p → p ∈ ps ∧ socketId p = sid.
Proof.
  unfold findPlayer. intros ([i q] & Hf & ->)%fmap_Some.
  apply list_find_Some in Hf as (Hl & Hp & _).
  split; [by eapply list_elem_of_lookup_2 | done].
Qed.

Lemma findPlayer_None (sid : string) (ps : list Player) :
  findPlayer sid ps = None → ∀ p, p ∈ ps → socketId p ≠ sid.
Proof.
  unfold findPlayer. intros Hf%fmap_None.
  apply list_find_None in Hf. by rewrite Forall_forall in Hf.
Qed.

Lemma findPlayer_member (sid : string) (room : Room) :
  isMember sid room → is_Some (findPlayer sid (players room)).
Proof.
  intros (p & Hin & Hp). unfold findPlayer.
  destruct (list_find_elem_of (λ q, socketId q = sid) _ _ Hin Hp)
    as [[i q] ->].
  by eexists.
Qed.

Lemma findPlayerIndex_Some (sid : string) (ps : list Player) (i : nat) :
  findPlayerIndex sid ps = Some i →
  ∃ p, ps !! i = Some p ∧ socketId p = sid.
Proof.
  unfold findPlayerIndex. intros ([j q] & Hf & ->)%fmap_Some.
  apply list_find_Some in Hf as (Hl & Hp & _). by exists q.
Qed.

Lemma findPlayerIndex_member (sid : string) (room : Room) :
  isMember sid room → is_Some (findPlayerIndex sid (players room)).
Proof.
  intros (p & Hin & Hp). unfold findPlayerIndex.
  destruct (list_find_elem_of (λ q, socketId q = sid) _ _ Hin Hp)
    as [[i q] ->].
  by eexists.
Qed.

Lemma length_append (s1 s2 : string) :
  String.length (s1 +:+ s2) = String.length s1 + String.length s2.
Proof. induction s1 as [|c s1 IH]; simpl; [done|]. by rewrite IH. Qed.

Lemma charAt_chars (i : nat) :
  i < 36 → String.length (charAt chars i) = 1.
Proof.
  intros Hi. do 36 (destruct i as [|i]; [reflexivity|]). lia.
Qed.

Lemma generateLoop_length (rnd : nat → nat) (n k : nat) (acc : string) :
  (∀ j, rnd j < 36) →
  String.length (generateLoop rnd n k acc) = String.length acc + n.
Proof.
  intros Hr. revert k acc. induction n as [|n IH]; intros k acc; simpl.
  - lia.
  - rewrite IH, length_append, charAt_chars by done. lia.
Qed.

(** With draws in the range of [Math.floor(Math.random() * 36)], an
    identifier has six characters. *)
Lemma generateRoomId_length (rnd : nat → nat) (k : nat) :
  (∀ j, rnd j < 36) → String.length (generateRoomId rnd k) = 6.
Proof. intros Hr. unfold generateRoomId. by rewrite generateLoop_length. Qed.

Lemma applyMove_players (room : Room) (index : Z) :
  players (applyMove room index).1 = players room.
Proof.
  unfold applyMove. simpl.
  destruct (checkWinner _); [done|]. by destruct (checkDraw _).
Qed.

Lemma noEmptyRoom_insert (rid : string) (room : Room) (rooms : Store) :
  noEmptyRoom rooms → players room ≠ [] →
  noEmptyRoom (<[rid := room]> rooms).
Proof.
  intros Hn Hp rid' room'. destruct (decide (rid = rid')) as [->|Hne].
  - rewrite lookup_insert_eq. by intros [= <-].
  - rewrite lookup_insert_ne by done. apply Hn.
Qed.

Lemma noEmptyRoom_delete (rid : string) (rooms : Store) :
  noEmptyRoom rooms → noEmptyRoom (delete rid rooms).
Proof.
  intros Hn rid' room'. destruct (decide (rid = rid')) as [->|Hne].
  - by rewrite lookup_delete_eq.
  - rewrite lookup_delete_ne by done. apply Hn.
Qed.

Lemma applyMoveToRoom_error (rid sid : string) (index : Z) (rooms : Store)
  (code : ErrorCode) :
  (applyMoveToRoom rid sid index rooms).2 = MoveErr code →
  (applyMoveToRoom rid sid index rooms).1 = rooms.
Proof.
  unfold applyMoveToRoom. destruct (rooms !! rid) as [room|]; [|done].
  destruct (getPlayerRole _ _ _); [|done].
  destruct (validateMove _ _ _); [|done].
  by destruct (applyMove _ _).
Qed.

Lemma registerReplayVote_error (rid sid : string) (rooms : Store)
  (code : ErrorCode) :
  (registerReplayVote rid sid rooms).2 = VoteErr code →
  (registerReplayVote rid sid rooms).1 = rooms.
Proof.
  unfold registerReplayVote. destruct (rooms !! rid) as [room|]; [|done].
  by repeat case_bool_decide.
Qed.

(** A vote that is accepted comes from a socket that had not voted, in a
    room whose game has ended, and adds that socket to the votes. *)
Lemma registerReplayVote_ok (rid sid : string) (rooms : Store) (n : nat) :
  (registerReplayVote rid sid rooms).2 = VoteOk n →
  ∃ room,
    rooms !! rid = Some room ∧ status room = ended ∧
    (sid ∉ replayVotes room) ∧
    (registerReplayVote rid sid rooms).1 =
      <[rid := set_replayVotes ({[sid]} ∪ replayVotes room) room]> rooms ∧
    n = S (size (replayVotes room)).
Proof.
  unfold registerReplayVote.
  destruct (rooms !! rid) as [room|]; [|discriminate].
  case_bool_decide as Hs; [discriminate|].
  case_bool_decide as Hv; [discriminate|]. simpl.
  intros [= <-]. exists room. split_and!; try done.
  rewrite size_union by set_solver. by rewrite size_singleton.
Qed.

(** A call of [registerReplayVote] keeps the room, its status and the
    votes it had. *)
Lemma registerReplayVote_keeps (rid sid : string) (rooms : Store)
  (room : Room) :
  rooms !! rid = Some room →
  ∃ room', (registerReplayVote rid sid rooms).1 !! rid = Some room' ∧
    status room' = status room ∧ replayVotes room ⊆ replayVotes room'.
Proof.
  intros Hl. unfold registerReplayVote. rewrite Hl.
  repeat case_bool_decide; simpl; try by exists room.
  rewrite lookup_insert_eq. eexists. split; [done|]. simpl.
  split; [done|set_solver].
Qed.

Lemma registerAll_keeps (rid : string) (sids : list string) (rooms : Store)
  (room : Room) :
  rooms !! rid = Some room →
  ∃ room', registerAll rid sids rooms !! rid = Some room' ∧
    status room' = status room ∧ replayVotes room ⊆ replayVotes room'.
Proof.
  revert rooms room. induction sids as [|sid sids IH]; intros rooms room Hl.
  - by exists room.
  - destruct (registerReplayVote_keeps rid sid rooms room Hl)
      as (room1 & Hl1 & Hs1 & Hv1).
    destruct (IH _ _ Hl1) as (room2 & Hl2 & Hs2 & Hv2).
    exists room2. split; [done|]. split; [congruence|set_solver].
Qed.

(** The [replay_request] listener leaves fewer than two votes in a room
    that had fewer than two. *)
Lemma replayRequest_below_two (rid sid : string) (rooms : Store) :
  size (votesOf rid rooms) < 2 →
  size (votesOf rid (replayRequest rid sid rooms)) < 2.
Proof.
  intros Hlt. unfold replayRequest. case_bool_decide as Hrid; [done|].
  destruct (registerReplayVote rid sid rooms) as [rooms1 res] eqn:Hr.
  destruct res as [n|code].
  - pose proof (registerReplayVote_ok rid sid rooms n) as Hok.
    rewrite Hr in Hok. simpl in Hok.
    destruct (Hok eq_refl) as (room & Hl & _ & _ & -> & ->).
    unfold votesOf in Hlt. rewrite Hl in Hlt.
    case_bool_decide as Hn.
    + unfold resetRoom, votesOf. rewrite lookup_insert_eq. simpl.
      rewrite lookup_insert_eq.
      change (size (∅ : gset string) < 2). rewrite size_empty. lia.
    + unfold votesOf. rewrite lookup_insert_eq. simpl.
      assert (size (replayVotes room) = 0) as Hz by lia.
      apply size_empty_inv in Hz. apply leibniz_equiv in Hz.
      rewrite Hz, union_empty_r_L, size_singleton. lia.
  - pose proof (registerReplayVote_error rid sid rooms code) as He.
    rewrite Hr in He. simpl in He. by rewrite He.
Qed.

Lemma replayRequests_below_two (rid : string) (sids : list string)
  (rooms : Store) :
  size (votesOf rid rooms) < 2 →
  size (votesOf rid (replayRequests rid sids rooms)) < 2.
Proof.
  revert rooms. induction sids as [|sid sids IH]; intros rooms Hlt; [done|].
  apply IH. by apply replayRequest_below_two.
Qed.


Section Facts.

Variable bcrypt_hash : string → string.
Variable bcrypt_compare : string → string → bool.

(** When the first identifier drawn is free, [createRoom] stores a
    waiting room whose only player is the creator, as X. *)
Lemma createRoom_fresh (rnd : nat → nat) (passKey sid : string)
  (rooms : Store) :
  rooms !! generateRoomId rnd 0 = None →
  ∃ room,
    createRoom bcrypt_hash rnd passKey sid rooms =
      (<[generateRoomId rnd 0 := room]> rooms,
       Returned (generateRoomId rnd 0)) ∧
    status room = waiting ∧ players room = [mkPlayer sid X] ∧
    board room = emptyBoard ∧ turn room = X ∧ startingTurn room = X.
Proof.
  intros Hn. unfold createRoom.
  rewrite bool_decide_eq_false_2 by (rewrite Hn; by intros [? ?]).
  eexists. split; [reflexivity|]. done.
Qed.

(** A player of a room that is not full who joins again gets the role it
    has, and nothing is written. *)
Lemma joinRoom_again_not_full (rid passKey sid : string) (rooms : Store)
  (room : Room) (p : Player) :
  rooms !! rid = Some room →
  bcrypt_compare passKey (passKeyHash room) = true →
  length (players room) < 2 →
  findPlayer sid (players room) = Some p →
  joinRoom bcrypt_compare rid passKey sid rooms = (rooms, JoinOk (role p) true).
Proof.
  intros Hl Hc Hn Hf. unfold joinRoom. rewrite Hl, Hc. simpl.
  rewrite bool_decide_eq_false_2 by lia. by rewrite Hf.
Qed.

Lemma joinRoom_error (rid passKey sid : string) (rooms : Store)
  (code : ErrorCode) :
  (joinRoom bcrypt_compare rid passKey sid rooms).2 = JoinErr code →
  (joinRoom bcrypt_compare rid passKey sid rooms).1 = rooms.
Proof.
  unfold joinRoom. destruct (rooms !! rid) as [room|]; [|done].
  destruct (negb _); [done|]. case_bool_decide; [done|].
  by destruct (findPlayer _ _).
Qed.

End Facts.

End ManagerFacts.

(** ** Creating, joining, moving *)

Module ManagerClaims.

Import Engine EngineFacts RoomManager ManagerFacts.

Section Claims.

Variable bcrypt_hash : string → string.
Variable bcrypt_compare : string → string → bool.

(** C4. What the code does where the claim asks for a regenerated
    identifier: when the first identifier drawn is already a key of the
    store, [createRoom] ends with a [TypeError] (the assignment to the
    [const roomId] inside the loop) and stores nothing. *)
Theorem createRoom_collision_throws (rnd : nat → nat) (passKey sid : string)
  (rooms : Store) :
  is_Some (rooms !! generateRoomId rnd 0) →
  createRoom bcrypt_hash rnd passKey sid rooms = (rooms, Thrown TypeError).
Proof.
  intros Hc. unfold createRoom. by rewrite bool_decide_eq_true_2.
Qed.

(** C2. What the code does for a player of a full room who joins again
    with the right pass key: the test of the room being full comes before
    the search for the player, so the answer is [ROOM_FULL] and not the
    role the player has. *)
Theorem joinRoom_full_before_member (rid passKey sid : string)
  (rooms : Store) (room : Room) :
  rooms !! rid = Some room →
  bcrypt_compare passKey (passKeyHash room) = true →
  length (players room) = 2 →
  isMember sid room →
  joinRoom bcrypt_compare rid passKey sid rooms = (rooms, JoinErr ROOM_FULL).
Proof.
  intros Hl Hc Hn _. unfold joinRoom. rewrite Hl, Hc. simpl.
  by rewrite bool_decide_eq_true_2 by lia.
Qed.

(** C5. When [applyMoveToRoom] succeeds, the socket that moved is a
    player of the room (the first entry of [players] with that socket),
    the turn was that of the role recorded for it, the cell at the index
    was [null] and now holds that role, every other cell and the length
    of the board are as before, and the turn went to the other role
    exactly when the move produced neither a winner nor a draw (otherwise
    it stayed). *)
Theorem applyMoveToRoom_one_cell (rid sid : string) (index : Z)
  (rooms rooms' : Store) (room' : Room) (w : Winner) :
  applyMoveToRoom rid sid index rooms = (rooms', MoveOk room' w) →
  ∃ room i p,
    rooms !! rid = Some room ∧
    players room !! i = Some p ∧ socketId p = sid ∧
    (∀ j q, players room !! j = Some q → j < i → socketId q ≠ sid) ∧
    getPlayerRole rid sid rooms = Some (role p) ∧
    turn room = role p ∧
    rooms' = <[rid := room']> rooms ∧
    board room !! Z.to_nat index = Some None ∧
    board room' !! Z.to_nat index = Some (Some (role p)) ∧
    (∀ n, n ≠ Z.to_nat index → board room' !! n = board room !! n) ∧
    length (board room') = length (board room) ∧
    (turn room' ≠ turn room ↔ w = NoWinner) ∧
    (w = NoWinner → turn room' = getOppositeRole (turn room)).
Proof.
  unfold applyMoveToRoom, getPlayerRole.
  destruct (rooms !! rid) as [room|] eqn:Hl; [|discriminate].
  unfold findPlayer.
  destruct (list_find (λ p, socketId p = sid) (players room))
    as [[i p]|] eqn:Hf; [|discriminate].
  apply list_find_Some in Hf as (Hp & Hs & Hmin). simpl.
  destruct (validateMove room (role p) index) eqn:Hv; [|discriminate].
  pose proof (validateMove_in_range _ _ _ Hv) as Hlt.
  apply validateMove_Valid in Hv as (_ & Ht & Hi & Hcell).
  assert (0 ≤ index)%Z as Hi0 by lia.
  pose proof (applyMove_board room index Hi0) as Hb.
  pose proof (applyMove_insert room index Hi0) as Ha.
  destruct (applyMove room index) as [room1 w1].
  intros [= <- <- <-]. simpl in Hb, Ha.
  exists room, i, p. split_and!; try done.
  - rewrite Hb, Ht. by apply list_lookup_insert_eq.
  - intros n Hn. rewrite Hb. by apply list_lookup_insert_ne.
  - rewrite Hb. apply length_insert.
  - destruct (checkWinner _); [|destruct (checkDraw _)];
      injection Ha as -> ->; simpl; split; try done.
    by destruct (turn room).
  - destruct (checkWinner _); [|destruct (checkDraw _)];
      injection Ha as -> ->; simpl; done.
Qed.

(** C6. When [joinRoom], [applyMoveToRoom] or [registerReplayVote]
    answers with an error, the store, and so every field of every room,
    is what it was before the call; in particular a join with a pass key
    that does not match answers [WRONG_PASSKEY] and writes nothing. *)
Theorem error_leaves_store (rid passKey sid : string) (index : Z)
  (rooms : Store) :
  (∀ code,
     (joinRoom bcrypt_compare rid passKey sid rooms).2 = JoinErr code →
     (joinRoom bcrypt_compare rid passKey sid rooms).1 = rooms) ∧
  (∀ code,
     (applyMoveToRoom rid sid index rooms).2 = MoveErr code →
     (applyMoveToRoom rid sid index rooms).1 = rooms) ∧
  (∀ code,
     (registerReplayVote rid sid rooms).2 = VoteErr code →
     (registerReplayVote rid sid rooms).1 = rooms) ∧
  (∀ room,
     rooms !! rid = Some room →
     bcrypt_compare passKey (passKeyHash room) = false →
     joinRoom bcrypt_compare rid passKey sid rooms =
       (rooms, JoinErr WRONG_PASSKEY)).
Proof.
  split_and!.
  - apply joinRoom_error.
  - apply applyMoveToRoom_error.
  - apply registerReplayVote_error.
  - intros room Hl Hc. unfold joinRoom. by rewrite Hl, Hc.
Qed.


Lemma perform_noEmptyRoom (op : Operation) (rooms : Store) :
  noEmptyRoom rooms →
  noEmptyRoom (perform bcrypt_hash bcrypt_compare op rooms).
Proof.
  intros Hn. destruct op; simpl.
  - unfold createRoom. case_bool_decide; simpl; [done|].
    by apply noEmptyRoom_insert.
  - unfold joinRoom. destruct (rooms !! rid) as [room|] eqn:Hl; [|done].
    destruct (negb _); [done|]. case_bool_decide; [done|].
    destruct (findPlayer _ _); [done|]. simpl.
    apply noEmptyRoom_insert; [done|].
    case_bool_decide; simpl; by destruct (players room).
  - unfold applyMoveToRoom.
    destruct (rooms !! rid) as [room|] eqn:Hl; [|done].
    destruct (getPlayerRole _ _ _); [|done].
    destruct (validateMove _ _ _); [|done].
    pose proof (applyMove_players room index) as Hp.
    destruct (applyMove room index) as [room1 w]. simpl in *.
    apply noEmptyRoom_insert; [done|]. rewrite Hp. by eapply Hn.
  - unfold registerReplayVote.
    destruct (rooms !! rid) as [room|] eqn:Hl; [|done].
    repeat case_bool_decide; simpl; try done.
    apply noEmptyRoom_insert; [done|]. simpl. by eapply Hn.
  - unfold resetRoom. destruct (rooms !! rid) as [room|] eqn:Hl; [|done].
    simpl. apply noEmptyRoom_insert; [done|]. simpl. by eapply Hn.
  - unfold removePlayer. destruct (rooms !! rid) as [room|] eqn:Hl; [|done].
    destruct (findPlayerIndex _ _) as [i|]; [|done].
    case_bool_decide as Hlen; simpl in *.
    + by apply noEmptyRoom_delete.
    + apply noEmptyRoom_insert; [done|]. simpl.
      intros He. by rewrite He in Hlen.
Qed.

Lemma performAll_noEmptyRoom (ops : list Operation) (rooms : Store) :
  noEmptyRoom rooms →
  noEmptyRoom (performAll bcrypt_hash bcrypt_compare ops rooms).
Proof.
  revert rooms. induction ops as [|op ops IH]; intros rooms Hn; [done|].
  apply IH. by apply perform_noEmptyRoom.
Qed.

(** C7. When a player of a two-player room leaves, the room stays in the
    store with one player, the status [waiting] and nine [null] cells;
    when the player of a one-player room leaves, the room is deleted.  No
    operation of the manager leaves a room without players in the store:
    a store without such rooms has none after any sequence of
    operations, and so has the store built from the empty one. *)
Theorem removePlayer_lifecycle :
  (∀ rid sid rooms room,
     rooms !! rid = Some room → isMember sid room →
     (length (players room) = 2 →
      ∃ room', (removePlayer rid sid rooms).1 !! rid = Some room' ∧
        length (players room') = 1 ∧ status room' = waiting ∧
        board room' = replicate 9 None) ∧
     (length (players room) = 1 →
      (removePlayer rid sid rooms).1 !! rid = None)) ∧
  (∀ ops rooms,
     noEmptyRoom rooms →
     noEmptyRoom (performAll bcrypt_hash bcrypt_compare ops rooms)) ∧
  (∀ ops, noEmptyRoom (performAll bcrypt_hash bcrypt_compare ops ∅)).
Proof.
  split_and!.
  - intros rid sid rooms room Hl Hm.
    destruct (findPlayerIndex_member _ _ Hm) as [i Hi].
    destruct (findPlayerIndex_Some _ _ _ Hi) as (p & Hp & _).
    assert (length (delete i (players room)) = length (players room) - 1)
      as Hd by (apply length_delete; by eexists).
    unfold removePlayer. rewrite Hl, Hi. simpl. split; intros Hlen.
    + rewrite bool_decide_eq_false_2 by lia. simpl.
      rewrite lookup_insert_eq. eexists. split; [done|]. simpl.
      split; [lia|done].
    + rewrite bool_decide_eq_true_2 by lia. simpl.
      apply lookup_delete_eq.
  - apply performAll_noEmptyRoom.
  - intros ops. apply performAll_noEmptyRoom.
    intros rid room Hl. by rewrite lookup_empty in Hl.
Qed.

End Claims.

(** C3, as the spec words it, fails: [registerReplayVote] asks neither
    whether the socket is a player nor how many votes there are, and three
    sockets voting in a room whose game has ended leave three votes. *)
Lemma registerReplayVote_third_vote :
  ¬ (size (votesOf "AAAAAA"
             (registerAll "AAAAAA" ["s1"; "s2"; "s3"] Sample.wonByX)) ≤ 2).
Proof.
  intros H. vm_compute in H. lia.
Qed.

(** C3, amended. A vote of a socket that has voted since the game ended
    answers [ALREADY_VOTED] and writes nothing; an accepted vote comes
    from a socket that had not voted, adds that socket and returns the
    count grown by one, and however many calls of [registerReplayVote]
    follow, the same socket is refused again.  The bound of two votes is
    kept by the [replay_request] listener, which resets the room as soon
    as the count it gets back is 2: from a room with fewer than two
    votes, after any sequence of requests there are fewer than two votes,
    and a vote registered then leaves at most two. *)
Theorem replayVotes_deduplicated (rid : string) (rooms : Store) :
  (∀ sid room,
     rooms !! rid = Some room → status room = ended →
     sid ∈ replayVotes room →
     registerReplayVote rid sid rooms = (rooms, VoteErr ALREADY_VOTED)) ∧
  (∀ sid n,
     (registerReplayVote rid sid rooms).2 = VoteOk n →
     (sid ∉ votesOf rid rooms) ∧
     votesOf rid (registerReplayVote rid sid rooms).1 =
       {[sid]} ∪ votesOf rid rooms ∧
     n = S (size (votesOf rid rooms)) ∧
     ∀ sids,
       registerReplayVote rid sid
         (registerAll rid sids (registerReplayVote rid sid rooms).1) =
       (registerAll rid sids (registerReplayVote rid sid rooms).1,
        VoteErr ALREADY_VOTED)) ∧
  (size (votesOf rid rooms) < 2 →
   ∀ sids sid,
     size (votesOf rid (replayRequests rid sids rooms)) < 2 ∧
     size (votesOf rid
             (registerReplayVote rid sid
                (replayRequests rid sids rooms)).1) ≤ 2).
Proof.
  split_and!.
  - intros sid room Hl Hs Hv. unfold registerReplayVote. rewrite Hl.
    rewrite (bool_decide_eq_false_2 (status room ≠ ended))
      by (intros H; by apply H).
    by rewrite (bool_decide_eq_true_2 (sid ∈ replayVotes room)).
  - intros sid n (room & Hl & Hs & Hv & Hst & ->)%registerReplayVote_ok.
    unfold votesOf at 1 3 4. rewrite Hl.
    split_and!; try done.
    + rewrite Hst. unfold votesOf. by rewrite lookup_insert_eq.
    + intros sids. rewrite Hst.
      destruct (registerAll_keeps rid sids
                  (<[rid := set_replayVotes ({[sid]} ∪ replayVotes room) room]>
                     rooms)
                  (set_replayVotes ({[sid]} ∪ replayVotes room) room))
        as (room2 & Hl2 & Hs2 & Hv2); [apply lookup_insert_eq|].
      simpl in Hs2, Hv2. unfold registerReplayVote at 1. rewrite Hl2.
      rewrite (bool_decide_eq_false_2 (status room2 ≠ ended))
        by (intros H; apply H; congruence).
      by rewrite (bool_decide_eq_true_2 (sid ∈ replayVotes room2))
        by set_solver.
  - intros Hlt sids sid.
    pose proof (replayRequests_below_two rid sids rooms Hlt) as Hb.
    split; [done|].
    destruct (registerReplayVote rid sid (replayRequests rid sids rooms)).2
      as [n|code] eqn:Hr.
    + apply registerReplayVote_ok in Hr as (room & Hl & _ & Hv & -> & _).
      unfold votesOf in *. rewrite Hl in Hb. rewrite lookup_insert_eq.
      simpl. rewrite size_union by set_solver. rewrite size_singleton. lia.
    + apply registerReplayVote_error in Hr. rewrite Hr. lia.
Qed.

Lemma createRoom_collision_throws_witness :
  createRoom Sample.hash Sample.zeros "wxyz" "s9" Sample.created =
  (Sample.created, Thrown TypeError).
Proof.
  apply (createRoom_collision_throws Sample.hash Sample.zeros "wxyz" "s9"
           Sample.created).
  vm_compute. eexists. reflexivity.
Defined.

Lemma joinRoom_full_before_member_witness :
  joinRoom Sample.compare "AAAAAA" "abcd" "s1" Sample.joined =
  (Sample.joined, JoinErr ROOM_FULL).
Proof.
  apply (joinRoom_full_before_member Sample.compare "AAAAAA" "abcd" "s1"
           Sample.joined Sample.freshRoom).
  - reflexivity.
  - reflexivity.
  - reflexivity.
  - exists (mkPlayer "s1" X). split; [left | reflexivity].
Defined.

Lemma applyMoveToRoom_one_cell_witness :
  players Sample.freshRoom !! 0 = Some (mkPlayer "s1" X) ∧
  getPlayerRole "AAAAAA" "s1" Sample.joined = Some X ∧
  turn Sample.freshRoom = X ∧
  board Sample.freshRoom !! 4 = Some None ∧
  board (applyMove Sample.freshRoom 4).1 !! 4 = Some (Some X) ∧
  turn (applyMove Sample.freshRoom 4).1 = O.
Proof.
  assert (Hj : Sample.joined !! "AAAAAA" = Some Sample.freshRoom)
    by (vm_compute; reflexivity).
  destruct (applyMoveToRoom_one_cell "AAAAAA" "s1" 4 Sample.joined
              (applyMoveToRoom "AAAAAA" "s1" 4 Sample.joined).1
              (applyMove Sample.freshRoom 4).1 NoWinner)
    as (room & i & p & Hl & Hp & Hs & Hmin & Hr & Ht & _ & Hb & Hb' & _ & _
        & _ & Hn).
  { vm_compute. reflexivity. }
  rewrite Hj in Hl. injection Hl as <-.
  assert (p = mkPlayer "s1" X) as ->.
  { destruct i as [|[|i]]; simpl in Hp.
    - by injection Hp as <-.
    - injection Hp as <-. discriminate Hs.
    - discriminate Hp. }
  assert (i = 0) as ->.
  { destruct i as [|i]; [done|]. by destruct (Hmin 0 _ eq_refl ltac:(lia)). }
  split; [exact Hp|]. split; [exact Hr|]. split; [exact Ht|].
  split; [exact Hb|]. split; [exact Hb'|]. exact (Hn eq_refl).
Defined.

Lemma error_leaves_store_witness :
  (joinRoom Sample.compare "AAAAAA" "nope" "s2" Sample.created).1 =
    Sample.created ∧
  (applyMoveToRoom "AAAAAA" "s1" 4 Sample.created).1 = Sample.created ∧
  (registerReplayVote "AAAAAA" "s1" Sample.created).1 = Sample.created ∧
  joinRoom Sample.compare "AAAAAA" "nope" "s2" Sample.created =
    (Sample.created, JoinErr WRONG_PASSKEY).
Proof.
  destruct (error_leaves_store Sample.compare "AAAAAA" "nope" "s2" 4
              Sample.created) as (Hj & _ & _ & Hw).
  destruct (error_leaves_store Sample.compare "AAAAAA" "nope" "s1" 4
              Sample.created) as (_ & Hm & Hv & _).
  split_and!.
  - apply (Hj WRONG_PASSKEY). reflexivity.
  - apply (Hm GAME_NOT_STARTED). reflexivity.
  - apply (Hv GAME_NOT_ENDED). reflexivity.
  - eapply Hw; reflexivity.
Defined.


Lemma replayVotes_deduplicated_witness :
  registerReplayVote "AAAAAA" "s1"
    (registerAll "AAAAAA" ["s2"]
       (registerReplayVote "AAAAAA" "s1" Sample.wonByX).1) =
  (registerAll "AAAAAA" ["s2"]
     (registerReplayVote "AAAAAA" "s1" Sample.wonByX).1,
   VoteErr ALREADY_VOTED) ∧
  size (votesOf "AAAAAA"
          (replayRequests "AAAAAA" ["s1"; "s2"; "s3"] Sample.wonByX)) < 2.
Proof.
  destruct (replayVotes_deduplicated "AAAAAA" Sample.wonByX)
    as (_ & Hv & Hb).
  split.
  - destruct (Hv "s1" 1) as (_ & _ & _ & Hs); [reflexivity|].
    apply (Hs ["s2"]).
  - assert (Hlt : size (votesOf "AAAAAA" Sample.wonByX) < 2)
      by (vm_compute; lia).
    destruct (Hb Hlt ["s1"; "s2"; "s3"] "s1") as [H _]. exact H.
Defined.

Lemma removePlayer_lifecycle_witness :
  (∃ room', (removePlayer "AAAAAA" "s1" Sample.wonByX).1 !! "AAAAAA"
            = Some room' ∧
     length (players room') = 1 ∧ status room' = waiting ∧
     board room' = replicate 9 None) ∧
  (removePlayer "AAAAAA" "s1" Sample.created).1 !! "AAAAAA" = None ∧
  noEmptyRoom
    (performAll Sample.hash Sample.compare
       [OpJoin "AAAAAA" "abcd" "s2"; OpRemove "AAAAAA" "s1";
        OpRemove "AAAAAA" "s2"] Sample.created).
Proof.
  assert (Hw : Sample.wonByX !! "AAAAAA" = Some Sample.diagonalOfX)
    by (vm_compute; reflexivity).
  assert (Hc : Sample.created = {[ "AAAAAA" := Sample.waitingRoom ]})
    by (vm_compute; reflexivity).
  assert (Hpw : players Sample.diagonalOfX =
                [mkPlayer "s1" X; mkPlayer "s2" O])
    by (vm_compute; reflexivity).
  assert (Hmw : isMember "s1" Sample.diagonalOfX).
  { exists (mkPlayer "s1" X). rewrite Hpw. split; [left|reflexivity]. }
  assert (Hmc : isMember "s1" Sample.waitingRoom).
  { exists (mkPlayer "s1" X). split; [left|reflexivity]. }
  destruct (removePlayer_lifecycle Sample.hash Sample.compare)
    as (Hr & Hn & _).
  split_and!.
  - destruct (Hr "AAAAAA" "s1" Sample.wonByX Sample.diagonalOfX Hw Hmw)
      as [H2 _].
    apply H2. by rewrite Hpw.
  - assert (Hl : Sample.created !! "AAAAAA" = Some Sample.waitingRoom)
      by (rewrite Hc; apply lookup_singleton_eq).
    destruct (Hr "AAAAAA" "s1" Sample.created Sample.waitingRoom Hl Hmc)
      as [_ H1].
    apply H1. reflexivity.
  - apply Hn. rewrite Hc. intros rid room [_ <-]%lookup_singleton_Some.
    discriminate.
Defined.

End ManagerClaims.

(** ** More on the game engine *)

Module EngineExtras.

Import Engine EngineFacts EngineClaims.

Lemma countMark_insert (b : Board) (n : nat) (t r : Role) :
  b !! n = Some None →
  countMark r (<[n := Some t]> b) =
  countMark r b + (if decide (r = t) then 1 else 0).
Proof.
  unfold countMark. revert n. induction b as [|c b IH]; intros n Hn.
  - by destruct n.
  - destruct n as [|n]; simpl in *.
    + injection Hn as ->. rewrite !filter_cons.
      rewrite (decide_False (P := None = Some r)) by done.
      destruct (decide (r = t)) as [->|Hne].
      * rewrite decide_True by done. simpl. lia.
      * rewrite decide_False by congruence. lia.
    + rewrite !filter_cons. destruct (decide (c = Some r)); simpl;
        rewrite (IH _ Hn); lia.
Qed.

(** The board of a game has nine cells, and one of them is free while
    the game is on. *)
Lemma reachable_free_cell (room : Room) :
  reachable room →
  length (board room) = 9 ∧ (status room = playing → None ∈ board room).
Proof.
  induction 1 as [room Hb|room index Hr [IHl _] Hv].
  - rewrite Hb. split; [done|]. intros _. by left.
  - apply validateMove_Valid in Hv as (_ & _ & Hi & _).
    assert (0 ≤ index)%Z as Hi0 by lia.
    rewrite applyMove_board, length_insert by done. split; [done|].
    rewrite applyMove_insert by done. simpl.
    destruct (checkWinner _); simpl; [discriminate|].
    destruct (checkDraw _) eqn:Hd; simpl; [discriminate|]. intros _.
    destruct (decide (None ∈ <[Z.to_nat index:=Some (turn room)]> (board room)))
      as [|Hno]; [done|].
    assert (checkDraw (<[Z.to_nat index:=Some (turn room)]> (board room))
            = true) as Ht; [|congruence].
    apply checkDraw_true. intros cell Hin ->. by apply Hno.
Qed.

(** X1. While a game is on, the player whose turn it is has a move that
    [validateMove] accepts: a game never stalls on a full board. *)
Theorem playing_has_valid_move (room : Room) :
  reachable room → status room = playing →
  ∃ index, validateMove room (turn room) index = Valid.
Proof.
  intros Hr Hs. destruct (reachable_free_cell room Hr) as [Hl Hf].
  destruct (proj1 (list_elem_of_lookup _ _) (Hf Hs)) as [i Hi].
  pose proof (lookup_lt_Some _ _ _ Hi) as Hlt.
  exists (Z.of_nat i). apply validateMove_Valid.
  rewrite Nat2Z.id. split_and!; try done; lia.
Qed.

Lemma playing_has_valid_move_witness :
  ∃ index, validateMove Sample.freshRoom X index = Valid.
Proof.
  apply (playing_has_valid_move Sample.freshRoom).
  - apply reachable_start. reflexivity.
  - reflexivity.
Defined.

(** X2. In a game, the winner that [applyMove] reports is the player
    who made the move. *)
Theorem winner_is_mover (room : Room) (index : Z) (w : Role) :
  reachable room →
  validateMove room (turn room) index = Valid →
  (applyMove room index).2 = Won w →
  w = turn room.
Proof.
  intros Hr Hv.
  pose proof (validateMove_in_range _ _ _ Hv) as Hlt.
  apply validateMove_Valid in Hv as (Hs & _ & Hi & _).
  rewrite applyMove_result, applyMove_board by lia.
  destruct (reachable_one_winner room Hr) as [Hn _]. specialize (Hn Hs).
  unfold checkWinner in *. rewrite checkWinnerLines_None in Hn.
  destruct (checkWinnerLines _ _) as [w'|] eqn:Hw.
  - intros [= ->]. apply checkWinnerLines_Some in Hw as (l & Hin & Hl).
    apply lineWinner_insert in Hl as [->|Hold]; [done| |done].
    rewrite (Hn _ Hin) in Hold. discriminate.
  - by destruct (checkDraw _).
Qed.

Lemma winner_is_mover_witness :
  X = turn (foldl (λ room index, (applyMove room index).1) Sample.freshRoom
              [0%Z; 1%Z; 4%Z; 2%Z]).
Proof.
  apply (winner_is_mover _ 8 X).
  - cbn [foldl]. do 4 (apply reachable_move; [|reflexivity]).
    apply reachable_start. reflexivity.
  - reflexivity.
  - reflexivity.
Defined.

Lemma reachable_balance (room : Room) :
  reachable room →
  (status room = playing →
   countMark (getOppositeRole (turn room)) (board room) =
     countMark (turn room) (board room) ∨
   countMark (getOppositeRole (turn room)) (board room) =
     countMark (turn room) (board room) + 1) ∧
  countMark X (board room) ≤ countMark O (board room) + 1 ∧
  countMark O (board room) ≤ countMark X (board room) + 1.
Proof.
  induction 1 as [room Hb|room index Hr [IH _] Hv].
  - rewrite Hb. split; [intros _; left; by destruct (turn room)|].
    split; vm_compute; lia.
  - apply validateMove_Valid in Hv as (Hs & _ & Hi & Hc).
    assert (0 ≤ index)%Z as Hi0 by lia.
    specialize (IH Hs).
    pose proof (countMark_insert _ _ (turn room) (turn room) Hc) as Ht.
    pose proof (countMark_insert _ _ (turn room)
                  (getOppositeRole (turn room)) Hc) as Ho.
    rewrite decide_True in Ht by done.
    rewrite decide_False in Ho by (by destruct (turn room)).
    rewrite applyMove_board by done. rewrite applyMove_insert by done.
    simpl.
    destruct (checkWinner _); [|destruct (checkDraw _)]; simpl;
      (split; [try discriminate|]);
      destruct (turn room); simpl in *; lia.
Qed.

(** X3. On every board of a game the numbers of X marks and of O marks
    differ by at most one. *)
Theorem marks_balanced (room : Room) :
  reachable room →
  countMark X (board room) ≤ countMark O (board room) + 1 ∧
  countMark O (board room) ≤ countMark X (board room) + 1.
Proof. intros Hr. by destruct (reachable_balance room Hr) as [_ ?]. Qed.

Lemma marks_balanced_witness :
  countMark X (board Sample.diagonalOfX) ≤
    countMark O (board Sample.diagonalOfX) + 1 ∧
  countMark O (board Sample.diagonalOfX) ≤
    countMark X (board Sample.diagonalOfX) + 1.
Proof.
  apply (marks_balanced Sample.diagonalOfX).
  unfold Sample.diagonalOfX. cbn [foldl].
  do 5 (apply reachable_move; [|reflexivity]).
  apply reachable_start. reflexivity.
Defined.

End EngineExtras.

(** ** Invariants of the store *)

Module ManagerInvariants.

Import Engine EngineFacts RoomManager ManagerFacts.

Lemma checkWinner_oneMark (i : nat) (r : Role) :
  i < 9 → checkWinner (<[i := Some r]> emptyBoard) = None.
Proof.
  intros Hi. do 9 (destruct i as [|i]; [by destruct r|]). lia.
Qed.

Lemma checkDraw_oneMark (i : nat) (r : Role) :
  checkDraw (<[i := Some r]> emptyBoard) = false.
Proof.
  do 9 (destruct i as [|i]; [reflexivity|]). reflexivity.
Qed.

Lemma storeOk_empty : storeOk ∅.
Proof. intros rid room Hl. by rewrite lookup_empty in Hl. Qed.

Lemma storeOk_insert (rid : string) (room : Room) (rooms : Store) :
  storeOk rooms → roomOk rid room → storeOk (<[rid := room]> rooms).
Proof.
  intros Hs Hr rid' room'. destruct (decide (rid = rid')) as [->|Hne].
  - rewrite lookup_insert_eq. by intros [= <-].
  - rewrite lookup_insert_ne by done. apply Hs.
Qed.

Lemma storeOk_delete (rid : string) (rooms : Store) :
  storeOk rooms → storeOk (delete rid rooms).
Proof.
  intros Hs rid' room'. destruct (decide (rid = rid')) as [->|Hne].
  - by rewrite lookup_delete_eq.
  - rewrite lookup_delete_ne by done. apply Hs.
Qed.

(** The room a player joins as the second player. *)
Lemma roomOk_join (rid sid : string) (room : Room) :
  roomOk rid room →
  length (players room) < 2 →
  findPlayer sid (players room) = None →
  roomOk rid
    (set_status playing
       (set_players (players room ++ [mkPlayer sid O]) room)).
Proof.
  intros (Hid & Hlen & Hnd & Hb & Hv & Hw & Hone) Hlt Hf.
  destruct (Hone Hlt) as [Hne Hboard].
  unfold roomOk. simpl. rewrite length_app. simpl. split_and!; try done.
  - lia.
  - lia.
  - rewrite fmap_app. apply NoDup_app. split_and!; [done| |apply NoDup_singleton].
    intros s (p & -> & Hp)%list_elem_of_fmap. simpl.
    intros Heq%list_elem_of_singleton.
    by apply (findPlayer_None _ _ Hf p Hp).
  - intros _. by apply Hv.
  - intros _. destruct Hboard as [->|[(i & r & Hi & ->) _]]; [done|].
    by apply checkWinner_oneMark.
  - lia.
Qed.

(** The room after a move that [validateMove] accepted for a player of
    the room. *)
Lemma roomOk_move (rid : string) (room : Room) (p : Player) (index : Z) :
  roomOk rid room →
  p ∈ players room →
  validateMove room (role p) index = Valid →
  roomOk rid (applyMove room index).1.
Proof.
  intros (Hid & Hlen & Hnd & Hb & Hv & Hw & Hone) Hp Hval.
  pose proof (validateMove_in_range _ _ _ Hval) as Hlt.
  apply validateMove_Valid in Hval as (Hs & Ht & Hi & Hc).
  assert (replayVotes room = ∅) as Hvotes by (apply Hv; by rewrite Hs).
  assert (length (players room) < 2 →
          board room = emptyBoard ∧ players room = [p]) as Hlone.
  { intros Hl. destruct (Hone Hl) as [_ [He|[_ Hr]]].
    - split; [done|]. destruct (players room) as [|q [|q' l]];
        simpl in *; try lia.
      by apply list_elem_of_singleton in Hp as ->.
    - by destruct (Hr p Hp). }
  rewrite applyMove_insert by lia. simpl.
  destruct (checkWinner (<[Z.to_nat index:=Some (turn room)]> (board room)))
    as [w|] eqn:Hcw;
    [|destruct (checkDraw (<[Z.to_nat index:=Some (turn room)]> (board room)))
        eqn:Hcd];
    unfold roomOk; simpl; rewrite ?length_insert;
    (split_and!; try done; try lia).
  - intros Hl. destruct (Hlone Hl) as [He _]. rewrite He in Hcw.
    rewrite checkWinner_oneMark in Hcw by lia. discriminate.
  - intros Hl. destruct (Hlone Hl) as [He _]. rewrite He in Hcd.
    by rewrite checkDraw_oneMark in Hcd.
  - intros Hl. destruct (Hlone Hl) as [He Hps]. split; [by rewrite Hs|].
    right. split.
    + exists (Z.to_nat index), (turn room). split; [lia|by rewrite He].
    + rewrite Hps. intros q ->%list_elem_of_singleton. rewrite Ht.
      by destruct (role p).
Qed.

Section Preservation.

Variable bcrypt_hash : string → string.
Variable bcrypt_compare : string → string → bool.

Lemma perform_storeOk (op : Operation) (rooms : Store) :
  storeOk rooms → storeOk (perform bcrypt_hash bcrypt_compare op rooms).
Proof.
  intros Hs. destruct op; simpl.
  - unfold createRoom. case_bool_decide; simpl; [done|].
    apply storeOk_insert; [done|].
    unfold roomOk; simpl. split_and!; try done; try lia.
    + apply NoDup_singleton.
    + intros _. split; [done|by left].
  - unfold joinRoom. destruct (rooms !! rid) as [room|] eqn:Hl; [|done].
    destruct (negb _); [done|]. case_bool_decide as Hfull; [done|].
    destruct (findPlayer _ _) eqn:Hf; [done|]. simpl.
    pose proof (Hs _ _ Hl) as Hr.
    assert (length (players room) = 1) as Hone.
    { destruct Hr as (_ & Hlen & _). lia. }
    rewrite (bool_decide_eq_false_2 (length (players room) = 0)) by lia.
    rewrite bool_decide_eq_true_2 by (rewrite length_app; simpl; lia).
    apply storeOk_insert; [done|]. apply roomOk_join; [done|lia|done].
  - unfold applyMoveToRoom.
    destruct (rooms !! rid) as [room|] eqn:Hl; [|done].
    destruct (getPlayerRole rid sid rooms) as [r|] eqn:Hr; [|done].
    destruct (validateMove room r index) eqn:Hv; [|done].
    unfold getPlayerRole in Hr. rewrite Hl in Hr.
    apply fmap_Some in Hr as (p & Hp & ->).
    apply findPlayer_Some in Hp as [Hp _].
    pose proof (roomOk_move rid room p index (Hs _ _ Hl) Hp Hv) as Hok.
    destruct (applyMove room index) as [room1 w]. simpl in *.
    by apply storeOk_insert.
  - unfold registerReplayVote.
    destruct (rooms !! rid) as [room|] eqn:Hl; [|done].
    case_bool_decide as Hst; [done|]. case_bool_decide; [done|]. simpl.
    apply storeOk_insert; [done|].
    destruct (Hs _ _ Hl) as (Hid & Hlen & Hnd & Hb & Hv & Hw & Hone).
    unfold roomOk; simpl. split_and!; try done; lia.
  - unfold resetRoom. destruct (rooms !! rid) as [room|] eqn:Hl; [|done].
    simpl. apply storeOk_insert; [done|].
    destruct (Hs _ _ Hl) as (Hid & Hlen & Hnd & Hb & Hv & Hw & Hone).
    unfold roomOk; simpl. split_and!; try done; try lia.
    intros _. split; [done|by left].
  - unfold removePlayer. destruct (rooms !! rid) as [room|] eqn:Hl; [|done].
    destruct (findPlayerIndex _ _) as [i|] eqn:Hi; [|done].
    case_bool_decide as Hlen0; simpl in *.
    + by apply storeOk_delete.
    + apply storeOk_insert; [done|].
      destruct (Hs _ _ Hl) as (Hid & Hlen & Hnd & Hb & Hv & Hw & Hone).
      destruct (findPlayerIndex_Some _ _ _ Hi) as (p & Hp & _).
      assert (length (delete i (players room)) = length (players room) - 1)
        as Hd by (apply length_delete; by eexists).
      unfold roomOk; simpl. split_and!; try done; try lia.
      * rewrite list_fmap_delete.
        eapply sublist_NoDup; [done|apply sublist_delete].
      * intros _. split; [done|by left].
Qed.

(** Every store that the operations of the manager build from the empty
    store satisfies [storeOk]. *)
Lemma performAll_storeOk (ops : list Operation) (rooms : Store) :
  storeOk rooms →
  storeOk (performAll bcrypt_hash bcrypt_compare ops rooms).
Proof.
  revert rooms. induction ops as [|op ops IH]; intros rooms Hs; [done|].
  apply IH. by apply perform_storeOk.
Qed.

(** X4. In every store built from the empty one by the operations of
    the manager, a room has one or two players, and their sockets are
    different. *)
Theorem rooms_hold_two_distinct_players (ops : list Operation)
  (rid : string) (room : Room) :
  performAll bcrypt_hash bcrypt_compare ops ∅ !! rid = Some room →
  1 ≤ length (players room) ≤ 2 ∧ NoDup (socketId <$> players room).
Proof.
  intros Hl.
  destruct (performAll_storeOk ops ∅ storeOk_empty _ _ Hl)
    as (_ & Hlen & Hnd & _).
  split; [lia|done].
Qed.

(** X5. In every such store a room is kept under its own identifier and
    its board has exactly nine cells. *)
Theorem rooms_keep_nine_cells (ops : list Operation) (rid : string)
  (room : Room) :
  performAll bcrypt_hash bcrypt_compare ops ∅ !! rid = Some room →
  roomId room = rid ∧ length (board room) = 9.
Proof.
  intros Hl.
  by destruct (performAll_storeOk ops ∅ storeOk_empty _ _ Hl)
    as (? & _ & _ & ? & _).
Qed.

(** X6. In every such store a room has replay votes only when its game
    has ended. *)
Theorem votes_only_after_end (ops : list Operation) (rid : string)
  (room : Room) :
  performAll bcrypt_hash bcrypt_compare ops ∅ !! rid = Some room →
  status room ≠ ended → replayVotes room = ∅.
Proof.
  intros Hl.
  by destruct (performAll_storeOk ops ∅ storeOk_empty _ _ Hl)
    as (_ & _ & _ & _ & ? & _).
Qed.

(** X7. In every such store the game of a room with a single player has
    not ended, so that every replay vote in that room is turned down
    with [GAME_NOT_ENDED]. *)
Theorem no_replay_alone (ops : list Operation) (rid sid : string)
  (room : Room) :
  performAll bcrypt_hash bcrypt_compare ops ∅ !! rid = Some room →
  length (players room) = 1 →
  status room ≠ ended ∧
  registerReplayVote rid sid
    (performAll bcrypt_hash bcrypt_compare ops ∅) =
  (performAll bcrypt_hash bcrypt_compare ops ∅, VoteErr GAME_NOT_ENDED).
Proof.
  intros Hl Hone.
  destruct (performAll_storeOk ops ∅ storeOk_empty _ _ Hl)
    as (_ & _ & _ & _ & _ & _ & Hlone).
  destruct Hlone as [Hne _]; [lia|]. split; [done|].
  unfold registerReplayVote. rewrite Hl.
  by rewrite bool_decide_eq_true_2.
Qed.

(** X8. In every such store, when a move is accepted and a winner is
    announced, the winner is the role of the socket that moved, and the
    game of the room has ended. *)
Theorem announced_winner_moved (ops : list Operation) (rid sid : string)
  (index : Z) (rooms' : Store) (room' : Room) (w : Role) :
  applyMoveToRoom rid sid index
    (performAll bcrypt_hash bcrypt_compare ops ∅) =
    (rooms', MoveOk room' (Won w)) →
  getPlayerRole rid sid (performAll bcrypt_hash bcrypt_compare ops ∅)
    = Some w ∧
  status room' = ended.
Proof.
  pose proof (performAll_storeOk ops ∅ storeOk_empty) as Hs.
  unfold applyMoveToRoom.
  destruct (_ !! rid) as [room|] eqn:Hl; [|discriminate].
  destruct (getPlayerRole rid sid _) as [r|] eqn:Hr; [|discriminate].
  destruct (validateMove room r index) eqn:Hv; [|discriminate].
  pose proof (validateMove_in_range _ _ _ Hv) as Hlt.
  apply validateMove_Valid in Hv as (Hst & Ht & Hi & _).
  destruct (Hs _ _ Hl) as (_ & _ & _ & _ & _ & Hw & _).
  specialize (Hw Hst). unfold checkWinner in Hw.
  rewrite checkWinnerLines_None in Hw.
  rewrite applyMove_insert by lia. simpl.
  destruct (checkWinner _) as [w'|] eqn:Hcw;
    [|destruct (checkDraw _)]; intros [= <- <- <-]. simpl.
  split; [|done]. f_equal.
  apply checkWinnerLines_Some in Hcw as (l & Hin & Hline).
  apply EngineClaims.lineWinner_insert in Hline as [->|Hold]; [done| |done].
  rewrite (Hw _ Hin) in Hold. discriminate.
Qed.

End Preservation.

Lemma script_builds_wonByX :
  performAll Sample.hash Sample.compare Sample.script ∅ = Sample.wonByX.
Proof. vm_compute. reflexivity. Qed.

Lemma script_room :
  performAll Sample.hash Sample.compare Sample.script ∅ !! "AAAAAA"
  = Some Sample.diagonalOfX.
Proof. vm_compute. reflexivity. Qed.

Lemma rooms_hold_two_distinct_players_witness :
  1 ≤ length (players Sample.diagonalOfX) ≤ 2 ∧
  NoDup (socketId <$> players Sample.diagonalOfX).
Proof.
  exact (rooms_hold_two_distinct_players Sample.hash Sample.compare
           Sample.script "AAAAAA" Sample.diagonalOfX script_room).
Defined.

Lemma rooms_keep_nine_cells_witness :
  roomId Sample.diagonalOfX = "AAAAAA" ∧
  length (board Sample.diagonalOfX) = 9.
Proof.
  exact (rooms_keep_nine_cells Sample.hash Sample.compare
           Sample.script "AAAAAA" Sample.diagonalOfX script_room).
Defined.

Lemma votes_only_after_end_witness :
  replayVotes Sample.waitingRoom = ∅.
Proof.
  apply (votes_only_after_end Sample.hash Sample.compare
           (take 1 Sample.script) "AAAAAA" Sample.waitingRoom).
  - vm_compute. reflexivity.
  - discriminate.
Defined.

Lemma no_replay_alone_witness :
  status Sample.waitingRoom ≠ ended ∧
  registerReplayVote "AAAAAA" "s1"
    (performAll Sample.hash Sample.compare (take 1 Sample.script) ∅) =
  (performAll Sample.hash Sample.compare (take 1 Sample.script) ∅,
   VoteErr GAME_NOT_ENDED).
Proof.
  apply (no_replay_alone Sample.hash Sample.compare
           (take 1 Sample.script) "AAAAAA" "s1" Sample.waitingRoom).
  - vm_compute. reflexivity.
  - reflexivity.
Defined.

Lemma announced_winner_moved_witness :
  getPlayerRole "AAAAAA" "s1"
    (performAll Sample.hash Sample.compare (take 6 Sample.script) ∅)
    = Some X ∧
  status Sample.diagonalOfX = ended.
Proof.
  apply (announced_winner_moved Sample.hash Sample.compare
           (take 6 Sample.script) "AAAAAA" "s1" 8 Sample.wonByX
           Sample.diagonalOfX X).
  vm_compute. reflexivity.
Defined.

End ManagerInvariants.

(** ** More on the room manager *)

Module ManagerExtras.

Import Engine EngineFacts RoomManager ManagerFacts.

(** X9. [applyMoveToRoom] accepts a move exactly when the room exists,
    the socket is one of its players, the game is on, it is the turn of
    that player's role, the index is between 0 and 8 and the cell is
    [null]. *)
Theorem applyMoveToRoom_accepts (rid sid : string) (index : Z)
  (rooms : Store) :
  (∃ rooms' room' w,
     applyMoveToRoom rid sid index rooms = (rooms', MoveOk room' w)) ↔
  ∃ room p,
    rooms !! rid = Some room ∧
    findPlayer sid (players room) = Some p ∧
    status room = playing ∧ turn room = role p ∧
    (0 ≤ index ≤ 8)%Z ∧ board room !! Z.to_nat index = Some None.
Proof.
  unfold applyMoveToRoom, getPlayerRole. split.
  - intros (rooms' & room' & w & H).
    destruct (rooms !! rid) as [room|]; [|discriminate].
    destruct (findPlayer sid (players room)) as [p|] eqn:Hp; [|discriminate].
    simpl in H.
    destruct (validateMove room (role p) index) eqn:Hv; [|discriminate].
    apply validateMove_Valid in Hv as (? & ? & ? & ?).
    exists room, p. split_and!; try done; lia.
  - intros (room & p & -> & -> & Hv). simpl.
    rewrite (proj2 (validateMove_Valid room (role p) index)) by done.
    destruct (applyMove room index) as [room' w]. by eexists _, _, _.
Qed.

(** X10. After a move of a socket has been accepted, the next move of
    the same socket in that room is refused and writes nothing: with
    [NOT_YOUR_TURN] when the game goes on, with [GAME_NOT_STARTED] when
    the move ended it. *)
Theorem mover_waits (rid sid : string) (index index' : Z)
  (rooms rooms' : Store) (room' : Room) (w : Winner) :
  applyMoveToRoom rid sid index rooms = (rooms', MoveOk room' w) →
  applyMoveToRoom rid sid index' rooms' =
  (rooms',
   MoveErr (match w with
            | NoWinner => NOT_YOUR_TURN
            | _ => GAME_NOT_STARTED
            end)).
Proof.
  unfold applyMoveToRoom, getPlayerRole.
  destruct (rooms !! rid) as [room|] eqn:Hl; [|discriminate].
  destruct (findPlayer sid (players room)) as [p|] eqn:Hp; [|discriminate].
  simpl.
  destruct (validateMove room (role p) index) eqn:Hv; [|discriminate].
  apply validateMove_Valid in Hv as (Hs & Ht & _).
  pose proof (applyMove_players room index) as Hpl.
  destruct (applyMove room index) as [room1 w1] eqn:Ha.
  intros [= <- <- <-]. simpl in Hpl.
  rewrite lookup_insert_eq, Hpl, Hp. simpl.
  unfold applyMove in Ha. simpl in Ha. unfold validateMove.
  destruct (checkWinner _); [|destruct (checkDraw _)];
    injection Ha as <- <-; simpl; [done..|].
  rewrite bool_decide_eq_false_2 by (intros H; apply H; exact Hs).
  rewrite bool_decide_eq_true_2; [done|].
  rewrite Ht. by destruct (role p).
Qed.

Lemma mover_waits_witness :
  applyMoveToRoom "AAAAAA" "s1" 5
    (applyMoveToRoom "AAAAAA" "s1" 4 Sample.joined).1 =
  ((applyMoveToRoom "AAAAAA" "s1" 4 Sample.joined).1, MoveErr NOT_YOUR_TURN).
Proof.
  apply (mover_waits "AAAAAA" "s1" 4 5 Sample.joined
           (applyMoveToRoom "AAAAAA" "s1" 4 Sample.joined).1
           (applyMove Sample.freshRoom 4).1 NoWinner).
  vm_compute. reflexivity.
Defined.

Lemma findPlayer_not_member (sid : string) (room : Room) :
  ¬ isMember sid room → findPlayer sid (players room) = None.
Proof.
  intros Hn. destruct (findPlayer sid (players room)) as [p|] eqn:Hf; [|done].
  apply findPlayer_Some in Hf as [Hin Hs]. destruct Hn. by exists p.
Qed.

Section Joining.

Variable bcrypt_hash : string → string.
Variable bcrypt_compare : string → string → bool.

Lemma joinRoom_one_player (rid passKey sid : string) (rooms : Store)
  (room : Room) :
  rooms !! rid = Some room →
  bcrypt_compare passKey (passKeyHash room) = true →
  length (players room) = 1 →
  ¬ isMember sid room →
  joinRoom bcrypt_compare rid passKey sid rooms =
  (<[rid := set_status playing
              (set_players (players room ++ [mkPlayer sid O]) room)]> rooms,
   JoinOk O false).
Proof.
  intros Hl Hc Hone Hn. unfold joinRoom. rewrite Hl, Hc. simpl.
  rewrite bool_decide_eq_false_2 by lia.
  rewrite (findPlayer_not_member _ _ Hn).
  rewrite (bool_decide_eq_false_2 (length (players room) = 0)) by lia.
  simpl. by rewrite bool_decide_eq_true_2 by (rewrite length_app; simpl; lia).
Qed.

(** X11. A socket that joins a room with one player, with the right
    pass key and without being that player, becomes its second player
    with role O, whatever the role of the first, and the game starts:
    the room is otherwise kept as it was. *)
Theorem joinRoom_second_player (rid passKey sid : string) (rooms : Store)
  (room : Room) :
  rooms !! rid = Some room →
  bcrypt_compare passKey (passKeyHash room) = true →
  length (players room) = 1 →
  ¬ isMember sid room →
  joinRoom bcrypt_compare rid passKey sid rooms =
  (<[rid := set_status playing
              (set_players (players room ++ [mkPlayer sid O]) room)]> rooms,
   JoinOk O false) ∧
  getPlayerRole rid sid
    (joinRoom bcrypt_compare rid passKey sid rooms).1 = Some O.
Proof.
  intros Hl Hc Hone Hn.
  rewrite (joinRoom_one_player rid passKey sid rooms room Hl Hc Hone Hn).
  split; [done|]. cbn [fst]. unfold getPlayerRole.
  rewrite lookup_insert_eq. cbn [players set_status set_players].
  destruct (players room) as [|p [|q l]] eqn:Hp; simpl in Hone; try lia.
  unfold findPlayer. simpl.
  rewrite decide_False.
  - simpl. by rewrite decide_True.
  - intros Hs. apply Hn. exists p. rewrite Hp. split; [left|done].
Qed.

(** X12. When the one player of a room has role O and the turn is X's,
    which is the state [removePlayer] leaves when X departs, the socket
    that joins gets role O as well, and no move is accepted in the room
    afterwards: a move of either of the two players is answered
    [NOT_YOUR_TURN], a move of any other socket [NOT_IN_ROOM], and the
    store is left as it is. *)
Theorem second_O_blocks_game (rid passKey sid s : string) (index : Z)
  (rooms : Store) (room : Room) (p : Player) :
  rooms !! rid = Some room →
  bcrypt_compare passKey (passKeyHash room) = true →
  players room = [p] → role p = O → turn room = X →
  socketId p ≠ sid →
  (joinRoom bcrypt_compare rid passKey sid rooms).2 = JoinOk O false ∧
  applyMoveToRoom rid s index
    (joinRoom bcrypt_compare rid passKey sid rooms).1 =
  ((joinRoom bcrypt_compare rid passKey sid rooms).1,
   MoveErr (if bool_decide (s = socketId p ∨ s = sid)
            then NOT_YOUR_TURN else NOT_IN_ROOM)).
Proof.
  intros Hl Hc Hp Hr Ht Hne.
  rewrite (joinRoom_one_player rid passKey sid rooms room Hl Hc).
  2: { by rewrite Hp. }
  2: { intros (q & Hq & Hs). rewrite Hp in Hq.
       apply list_elem_of_singleton in Hq as ->. done. }
  cbn [fst snd]. split; [done|]. unfold applyMoveToRoom, getPlayerRole.
  rewrite lookup_insert_eq. simpl. rewrite Hp. unfold findPlayer. simpl.
  destruct (decide (socketId p = s)) as [Hs|Hs]; simpl.
  - rewrite bool_decide_eq_true_2 by (by left).
    unfold validateMove. simpl. by rewrite Hr, Ht.
  - destruct (decide (sid = s)) as [Hs'|Hs']; simpl.
    + rewrite bool_decide_eq_true_2 by (by right).
      unfold validateMove. simpl. by rewrite Ht.
    + by rewrite bool_decide_eq_false_2 by (intros [?|?]; congruence).
Qed.

(** X13. An operation of the manager reads and writes one key of the
    store: every other room is left as it was. *)
Theorem other_rooms_untouched (op : Operation) (rid : string)
  (rooms : Store) :
  rid ≠ opRoom op →
  perform bcrypt_hash bcrypt_compare op rooms !! rid = rooms !! rid.
Proof.
  intros Hne. destruct op; simpl in *.
  - unfold createRoom. case_bool_decide; simpl; [done|].
    by rewrite lookup_insert_ne.
  - unfold joinRoom. destruct (rooms !! rid0); [|done].
    destruct (negb _); [done|]. case_bool_decide; [done|].
    destruct (findPlayer _ _); [done|]. simpl. by rewrite lookup_insert_ne.
  - unfold applyMoveToRoom. destruct (rooms !! rid0); [|done].
    destruct (getPlayerRole _ _ _); [|done].
    destruct (validateMove _ _ _); [|done].
    destruct (applyMove _ _). simpl. by rewrite lookup_insert_ne.
  - unfold registerReplayVote. destruct (rooms !! rid0); [|done].
    repeat case_bool_decide; simpl; try done. by rewrite lookup_insert_ne.
  - unfold resetRoom. destruct (rooms !! rid0); [|done].
    simpl. by rewrite lookup_insert_ne.
  - unfold removePlayer. destruct (rooms !! rid0); [|done].
    destruct (findPlayerIndex _ _); [|done].
    case_bool_decide; simpl.
    + by rewrite lookup_delete_ne.
    + by rewrite lookup_insert_ne.
Qed.

(** X14. When the identifier drawn first is not in the store (and the
    draws are in the range of the alphabet), [createRoom] returns that
    identifier, which has six characters, and adds under it a waiting
    room with a cleared board, X to start, no votes, and the creator as
    its only player with role X; the pass key is stored hashed. *)
Theorem createRoom_stores_waiting_room (rnd : nat → nat)
  (passKey sid : string) (rooms : Store) :
  (∀ j, rnd j < 36) →
  rooms !! generateRoomId rnd 0 = None →
  String.length (generateRoomId rnd 0) = 6 ∧
  createRoom bcrypt_hash rnd passKey sid rooms =
  (<[generateRoomId rnd 0 :=
       mkRoom (generateRoomId rnd 0) (bcrypt_hash passKey)
              [mkPlayer sid X] (replicate 9 None) X waiting ∅ X]> rooms,
   Returned (generateRoomId rnd 0)).
Proof.
  intros Hr Hn. split; [by apply generateRoomId_length|].
  unfold createRoom.
  by rewrite bool_decide_eq_false_2 by (rewrite Hn; by intros [? ?]).
Qed.

End Joining.

Lemma joinRoom_second_player_witness :
  joinRoom Sample.compare "AAAAAA" "abcd" "s2" Sample.created =
  (<["AAAAAA" := Sample.freshRoom]> Sample.created, JoinOk O false) ∧
  getPlayerRole "AAAAAA" "s2"
    (joinRoom Sample.compare "AAAAAA" "abcd" "s2" Sample.created).1 = Some O.
Proof.
  apply (joinRoom_second_player Sample.compare "AAAAAA" "abcd" "s2"
           Sample.created Sample.waitingRoom).
  - vm_compute. reflexivity.
  - reflexivity.
  - reflexivity.
  - intros (p & Hp & Hs). apply list_elem_of_singleton in Hp as ->.
    discriminate Hs.
Defined.

Lemma second_O_blocks_game_witness :
  (joinRoom Sample.compare "AAAAAA" "abcd" "s3" Sample.leftByX).2
    = JoinOk O false ∧
  applyMoveToRoom "AAAAAA" "s2" 4
    (joinRoom Sample.compare "AAAAAA" "abcd" "s3" Sample.leftByX).1 =
  ((joinRoom Sample.compare "AAAAAA" "abcd" "s3" Sample.leftByX).1,
   MoveErr NOT_YOUR_TURN) ∧
  applyMoveToRoom "AAAAAA" "s3" 4
    (joinRoom Sample.compare "AAAAAA" "abcd" "s3" Sample.leftByX).1 =
  ((joinRoom Sample.compare "AAAAAA" "abcd" "s3" Sample.leftByX).1,
   MoveErr NOT_YOUR_TURN) ∧
  applyMoveToRoom "AAAAAA" "s9" 4
    (joinRoom Sample.compare "AAAAAA" "abcd" "s3" Sample.leftByX).1 =
  ((joinRoom Sample.compare "AAAAAA" "abcd" "s3" Sample.leftByX).1,
   MoveErr NOT_IN_ROOM).
Proof.
  assert (Hl : Sample.leftByX !! "AAAAAA" = Some Sample.roomOfO)
    by (vm_compute; reflexivity).
  assert (Hne : socketId (mkPlayer "s2" O) ≠ "s3") by discriminate.
  pose proof (λ s, second_O_blocks_game Sample.compare "AAAAAA" "abcd" "s3"
                     s 4 Sample.leftByX Sample.roomOfO (mkPlayer "s2" O)
                     Hl eq_refl eq_refl eq_refl eq_refl Hne) as H.
  split; [exact (proj1 (H "s2"))|].
  split; [exact (proj2 (H "s2"))|].
  split; [exact (proj2 (H "s3"))|exact (proj2 (H "s9"))].
Defined.

Lemma other_rooms_untouched_witness :
  perform Sample.hash Sample.compare (OpRemove "BBBBBB" "s1") Sample.joined
    !! "AAAAAA" = Sample.joined !! "AAAAAA".
Proof.
  apply (other_rooms_untouched Sample.hash Sample.compare
           (OpRemove "BBBBBB" "s1") "AAAAAA" Sample.joined).
  discriminate.
Defined.

Lemma createRoom_stores_waiting_room_witness :
  String.length (generateRoomId Sample.zeros 0) = 6 ∧
  createRoom Sample.hash Sample.zeros "abcd" "s1" ∅ =
  (<[generateRoomId Sample.zeros 0 :=
       mkRoom (generateRoomId Sample.zeros 0) (Sample.hash "abcd")
              [mkPlayer "s1" X] (replicate 9 None) X waiting ∅ X]> ∅,
   Returned (generateRoomId Sample.zeros 0)).
Proof.
  apply (createRoom_stores_waiting_room Sample.hash Sample.zeros "abcd" "s1"
           ∅).
  - intros j. unfold Sample.zeros. lia.
  - apply lookup_empty.
Defined.

(** X15. The socket that [getOpponentSocketId] returns is never the
    caller's own and is a player of the room; there is none exactly when
    the room is missing or every player has the caller's socket; and in a
    room with two players on different sockets each is the opponent of
    the other. *)
Theorem getOpponentSocketId_other (rid sid : string) (rooms : Store) :
  (∀ o, getOpponentSocketId rid sid rooms = Some o →
     o ≠ sid ∧ ∃ room, rooms !! rid = Some room ∧ isMember o room) ∧
  (getOpponentSocketId rid sid rooms = None ↔
   ∀ room p, rooms !! rid = Some room → p ∈ players room →
     socketId p = sid) ∧
  (∀ room p q,
     rooms !! rid = Some room → players room = [p; q] →
     socketId p ≠ socketId q →
     getOpponentSocketId rid (socketId p) rooms = Some (socketId q) ∧
     getOpponentSocketId rid (socketId q) rooms = Some (socketId p)).
Proof.
  unfold getOpponentSocketId. split_and!.
  - intros o H. destruct (rooms !! rid) as [room|]; [|discriminate].
    apply fmap_Some in H as (p & Hp & ->).
    apply fmap_Some in Hp as ([i q] & Hf & ->).
    apply list_find_Some in Hf as (Hl & Hne & _). simpl.
    split; [done|]. exists room. split; [done|]. exists q.
    split; [by eapply list_elem_of_lookup_2|done].
  - destruct (rooms !! rid) as [room|]; [|split; [by intros|done]].
    rewrite !fmap_None, list_find_None, Forall_forall. split.
    + intros H room' p [= <-] Hp. specialize (H p Hp).
      by destruct (decide (socketId p = sid)).
    + intros H p Hp Hne. apply Hne. by eapply H.
  - intros room p q -> -> Hne. simpl. split.
    + rewrite decide_False by (intros H; by apply H). simpl.
      rewrite decide_True by congruence. done.
    + rewrite decide_True by done. done.
Qed.

Lemma getOpponentSocketId_other_witness :
  getOpponentSocketId "AAAAAA" "s1" Sample.joined = Some "s2" ∧
  getOpponentSocketId "AAAAAA" "s2" Sample.joined = Some "s1".
Proof.
  destruct (getOpponentSocketId_other "AAAAAA" "s1" Sample.joined)
    as (_ & _ & H).
  apply (H Sample.freshRoom (mkPlayer "s1" X) (mkPlayer "s2" O)).
  - vm_compute. reflexivity.
  - reflexivity.
  - discriminate.
Defined.

(** X17. The report of [removePlayer] is accurate: [hadPlayers] tells
    whether the socket was a player of the room, [roomExists] whether the
    room is in the store afterwards, [remainingPlayers] how many players
    it then has (0 when it is gone); and when the socket was not a player
    nothing is written. *)
Theorem removePlayer_report (rid sid : string) (rooms : Store) :
  (hadPlayers (removePlayer rid sid rooms).2 = true ↔
   ∃ room, rooms !! rid = Some room ∧ isMember sid room) ∧
  (roomExists (removePlayer rid sid rooms).2 = true ↔
   is_Some ((removePlayer rid sid rooms).1 !! rid)) ∧
  remainingPlayers (removePlayer rid sid rooms).2 =
    from_option (λ room, length (players room)) 0
      ((removePlayer rid sid rooms).1 !! rid) ∧
  (hadPlayers (removePlayer rid sid rooms).2 = false →
   (removePlayer rid sid rooms).1 = rooms).
Proof.
  unfold removePlayer. destruct (rooms !! rid) as [room|] eqn:Hl.
  - destruct (findPlayerIndex sid (players room)) as [i|] eqn:Hi.
    + assert (isMember sid room) as Hm.
      { destruct (findPlayerIndex_Some _ _ _ Hi) as (p & Hp & Hs).
        exists p. split; [by eapply list_elem_of_lookup_2|done]. }
      case_bool_decide as Hlen; simpl.
      * rewrite lookup_delete_eq. simpl. split_and!; try done.
        split; [|done]. intros _. by exists room.
      * rewrite lookup_insert_eq. simpl. split_and!; try done.
        split; [|done]. intros _. by exists room.
    + simpl. rewrite Hl. simpl. split_and!; try done.
      split; [done|]. intros (room' & [= <-] & Hm).
      destruct (findPlayerIndex_member _ _ Hm) as [? ?]. congruence.
  - simpl. rewrite Hl. simpl. split_and!; try done.
    split; [done|]. by intros (? & ? & _).
Qed.

Lemma removePlayer_report_witness :
  (removePlayer "AAAAAA" "s9" Sample.joined).1 = Sample.joined.
Proof.
  destruct (removePlayer_report "AAAAAA" "s9" Sample.joined)
    as (_ & _ & _ & H).
  apply H. vm_compute. reflexivity.
Defined.

End ManagerExtras.

(** ** The listeners of the socket handler *)

Module HandlerExtras.

Import Engine EngineFacts RoomManager ManagerFacts SocketHandler.

Lemma hasPlayer_member (sid : string) (room : Room) :
  hasPlayer sid room = true ↔ isMember sid room.
Proof.
  unfold hasPlayer, isMember. rewrite existsb_exists. split.
  - intros (p & Hin & Hp). exists p. split; [by apply list_elem_of_In|].
    by apply bool_decide_eq_true in Hp.
  - intros (p & Hin & Hp). exists p. split; [by apply list_elem_of_In|].
    by apply bool_decide_eq_true.
Qed.

Lemma leaveStep_store (sid rid : string) (rooms : Store) :
  (leaveStep sid rid rooms).1 = (removePlayer rid sid rooms).1.
Proof.
  unfold leaveStep. destruct (removePlayer rid sid rooms) as [rooms' res].
  destruct (getOpponentSocketId rid sid rooms); [|done].
  by destruct (_ && _).
Qed.

(** What [leaveStep] sends: nothing, or one [player_left] to a player of
    the room other than the leaver, who was a player too. *)
Lemma leaveStep_emits (sid rid : string) (rooms : Store) :
  (leaveStep sid rid rooms).2 = [] ∨
  ∃ o room,
    (leaveStep sid rid rooms).2 = [ToSocket o EvPlayerLeft] ∧
    o ≠ sid ∧ o ≠ "" ∧ rooms !! rid = Some room ∧
    isMember o room ∧ isMember sid room.
Proof.
  unfold leaveStep, getOpponentSocketId, removePlayer.
  destruct (rooms !! rid) as [room|] eqn:Hl; [|by left]. simpl.
  destruct (list_find (λ p, socketId p ≠ sid) (players room))
    as [[j q]|] eqn:Hf; simpl.
  - apply list_find_Some in Hf as (Hq & Hne & _).
    destruct (findPlayerIndex sid (players room)) as [i|] eqn:Hi.
    + destruct (findPlayerIndex_Some _ _ _ Hi) as (p & Hp & Hs).
      assert (isMember (socketId q) room) as Hmq.
      { exists q. split; [by eapply list_elem_of_lookup_2|done]. }
      assert (isMember sid room) as Hmp.
      { exists p. split; [by eapply list_elem_of_lookup_2|done]. }
      case_bool_decide; simpl; (case_bool_decide; simpl; [|by left]);
        right; exists (socketId q), room; by split_and!.
    + simpl. rewrite andb_false_r. by left.
  - destruct (findPlayerIndex sid (players room)); [|by left].
    case_bool_decide; by left.
Qed.

Lemma removePlayer_other (rid rid' sid : string) (rooms : Store) :
  rid' ≠ rid → (removePlayer rid sid rooms).1 !! rid' = rooms !! rid'.
Proof.
  intros Hne. unfold removePlayer. destruct (rooms !! rid); [|done].
  destruct (findPlayerIndex _ _); [|done]. case_bool_decide; simpl.
  - by rewrite lookup_delete_ne.
  - by rewrite lookup_insert_ne.
Qed.

(** What [removePlayer] leaves under a key depends on what was there. *)
Lemma removePlayer_local (rid sid : string) (rooms1 rooms2 : Store) :
  rooms1 !! rid = rooms2 !! rid →
  (removePlayer rid sid rooms1).1 !! rid =
  (removePlayer rid sid rooms2).1 !! rid.
Proof.
  intros He. unfold removePlayer. rewrite <- He.
  destruct (rooms1 !! rid) as [room|] eqn:Hl; [|simpl; congruence].
  destruct (findPlayerIndex _ _); [|simpl; congruence].
  case_bool_decide; simpl.
  - by rewrite !lookup_delete_eq.
  - by rewrite !lookup_insert_eq.
Qed.

Lemma removePlayer_stranger (rid sid : string) (rooms : Store) :
  (∀ room, rooms !! rid = Some room → ¬ isMember sid room) →
  (removePlayer rid sid rooms).1 = rooms.
Proof.
  intros Hn. unfold removePlayer.
  destruct (rooms !! rid) as [room|] eqn:Hl; [|done].
  destruct (findPlayerIndex sid (players room)) as [i|] eqn:Hi; [|done].
  destruct (findPlayerIndex_Some _ _ _ Hi) as (p & Hp & Hs).
  destruct (Hn room eq_refl). exists p.
  split; [by eapply list_elem_of_lookup_2|done].
Qed.

(** Once removed, a socket that was there once is not a player. *)
Lemma removePlayer_gone (rid sid : string) (rooms : Store) (room room' : Room) :
  rooms !! rid = Some room →
  NoDup (socketId <$> players room) →
  (removePlayer rid sid rooms).1 !! rid = Some room' →
  ¬ isMember sid room'.
Proof.
  intros Hl Hnd. unfold removePlayer. rewrite Hl.
  destruct (findPlayerIndex sid (players room)) as [i|] eqn:Hi.
  - destruct (findPlayerIndex_Some _ _ _ Hi) as (p & Hp & Hs).
    case_bool_decide; simpl.
    + by rewrite lookup_delete_eq.
    + rewrite lookup_insert_eq. intros [= <-]. simpl.
      intros (q & Hq & Hqs). simpl in Hq.
      apply list_elem_of_lookup in Hq as [j Hj].
      assert (∃ j', j' ≠ i ∧ players room !! j' = Some q) as (j' & Hne & Hj').
      { destruct (decide (j < i)).
        - exists j. split; [lia|]. by rewrite list_lookup_delete_lt in Hj.
        - exists (S j). split; [lia|].
          by rewrite list_lookup_delete_ge in Hj by lia. }
      apply Hne. eapply (NoDup_lookup _ _ _ sid Hnd).
      * by rewrite list_lookup_fmap, Hj'; simpl; rewrite Hqs.
      * by rewrite list_lookup_fmap, Hp; simpl; rewrite Hs.
  - simpl. rewrite Hl. intros [= <-] Hm.
    destruct (findPlayerIndex_member _ _ Hm) as [? ?]. congruence.
Qed.

Lemma findPlayerRooms_elem (entries : list (string * Room))
  (sid rid : string) :
  rid ∈ findPlayerRooms entries sid ↔
  ∃ room, (rid, room) ∈ entries ∧ hasPlayer sid room = true.
Proof.
  induction entries as [|[rid' room'] rest IH]; simpl.
  - split; [by intros ?%elem_of_nil|]. by intros (? & ?%elem_of_nil & _).
  - destruct (hasPlayer sid room') eqn:Hh.
    + rewrite elem_of_cons, IH. split.
      * intros [->|(room & Hin & Hp)].
        -- exists room'. split; [left|done].
        -- exists room. split; [by right|done].
      * intros (room & [[= -> ->]|Hin]%elem_of_cons & Hp); [by left|].
        right. by exists room.
    + rewrite IH. split.
      * intros (room & Hin & Hp). exists room. split; [by right|done].
      * intros (room & [[= -> ->]|Hin]%elem_of_cons & Hp); [congruence|].
        by exists room.
Qed.

Lemma findPlayerRooms_NoDup (entries : list (string * Room)) (sid : string) :
  NoDup entries.*1 → NoDup (findPlayerRooms entries sid).
Proof.
  induction entries as [|[rid room] rest IH]; simpl; [constructor|].
  intros [Hn Hd]%NoDup_cons. destruct (hasPlayer sid room); [|by apply IH].
  apply NoDup_cons. split; [|by apply IH].
  intros (room' & Hin & _)%findPlayerRooms_elem. apply Hn.
  apply list_elem_of_fmap. by exists (rid, room').
Qed.

(** The store after the loop of the [disconnect] listener over keys
    without repetition. *)
Lemma disconnect_loop_store (sid : string) (rids : list string)
  (rooms : Store) (out : list Emit) (rid : string) :
  NoDup rids →
  (foldl (λ acc rid0,
            let '(rooms', out') := leaveStep sid rid0 acc.1 in
            (rooms', acc.2 ++ out')) (rooms, out) rids).1 !! rid =
  if decide (rid ∈ rids) then (removePlayer rid sid rooms).1 !! rid
  else rooms !! rid.
Proof.
  revert rooms out. induction rids as [|r rs IH]; intros rooms out Hnd.
  - cbn [foldl fst].
    destruct (decide (rid ∈ [])) as [H|]; [by apply elem_of_nil in H|done].
  - apply NoDup_cons in Hnd as [Hr Hnd]. cbn [foldl fst snd].
    pose proof (leaveStep_store sid r rooms) as Hst.
    destruct (leaveStep sid r rooms) as [rooms1 out1]. simpl in Hst.
    rewrite (IH rooms1 (out ++ out1) Hnd). subst rooms1.
    destruct (decide (rid = r)) as [->|Hne].
    + rewrite decide_False by done. rewrite decide_True by left. done.
    + destruct (decide (rid ∈ rs)) as [Hin|Hin].
      * rewrite decide_True by (by right).
        apply removePlayer_local. by apply removePlayer_other.
      * rewrite decide_False by (intros [?|?]%elem_of_cons; done).
        by apply removePlayer_other.
Qed.

Lemma disconnect_loop_emits (sid : string) (rids : list string)
  (rooms : Store) (out : list Emit) (e : Emit) :
  e ∈ (foldl (λ acc rid0,
                let '(rooms', out') := leaveStep sid rid0 acc.1 in
                (rooms', acc.2 ++ out')) (rooms, out) rids).2 →
  e ∈ out ∨ ∃ o, e = ToSocket o EvPlayerLeft ∧ o ≠ sid.
Proof.
  revert rooms out. induction rids as [|r rs IH]; intros rooms out; simpl.
  - by left.
  - pose proof (leaveStep_emits sid r rooms) as He.
    destruct (leaveStep sid r rooms) as [rooms1 out1]. simpl in *.
    intros [Hin|Hnew]%IH; [|by right].
    apply elem_of_app in Hin as [Hin|Hin]; [by left|].
    destruct He as [->|(o & room & -> & Hne & _)].
    + by apply elem_of_nil in Hin.
    + apply list_elem_of_singleton in Hin as ->. right. by exists o.
Qed.



(** X20. The [make_move] listener sends one message.  Either it is an
    error for the socket that asked, and the store is as before; or it is
    a [board_update] for the room, carrying the board and the turn of the
    room as it is now stored, with a [null] winner exactly when the game
    of that room is still on. *)
Theorem onMakeMove_outcome (sid rid : string) (index : Z) (rooms : Store) :
  (∃ code,
     onMakeMove sid rid index rooms = (rooms, [ToSocket sid (EvError code)])) ∨
  (∃ room' w,
     (onMakeMove sid rid index rooms).2 =
       [ToRoom rid (EvBoardUpdate (board room') (turn room') w)] ∧
     (onMakeMove sid rid index rooms).1 !! rid = Some room' ∧
     (w = NoWinner ↔ status room' = playing) ∧
     applyMoveToRoom rid sid index rooms =
       ((onMakeMove sid rid index rooms).1, MoveOk room' w)).
Proof.
  unfold onMakeMove. case_bool_decide; [left; by eexists|].
  case_bool_decide; [left; by eexists|].
  destruct (applyMoveToRoom rid sid index rooms) as [rooms' [room' w|code]]
    eqn:Hm.
  - right. exists room', w. cbn [fst snd]. split; [done|].
    unfold applyMoveToRoom in Hm.
    destruct (rooms !! rid) as [room|]; [|discriminate].
    destruct (getPlayerRole rid sid rooms) as [r|]; [|discriminate].
    destruct (validateMove room r index) eqn:Hv; [|discriminate].
    apply validateMove_Valid in Hv as (Hs & _).
    unfold applyMove in Hm. simpl in Hm.
    destruct (checkWinner _); [|destruct (checkDraw _)];
      injection Hm as <- <- <-; rewrite lookup_insert_eq; simpl;
      split_and!; try done.
  - left. exists code.
    pose proof (applyMoveToRoom_error rid sid index rooms code) as He.
    rewrite Hm in He. simpl in He. by rewrite He.
Qed.

(** X21. The [leave_room] listener sends at most one message; what it
    sends is a [player_left] to a socket other than the one that leaves,
    a player of the room, and only when the one that leaves was a player
    too.  When the sockets of the room are different, the socket that
    left with a room identifier that is not empty is no longer among its
    players. *)
Theorem onLeaveRoom_outcome (sid rid : string) (rooms : Store) :
  length (onLeaveRoom sid rid rooms).2 ≤ 1 ∧
  (∀ e, e ∈ (onLeaveRoom sid rid rooms).2 →
     ∃ o room, e = ToSocket o EvPlayerLeft ∧ o ≠ sid ∧
       rooms !! rid = Some room ∧ isMember o room ∧ isMember sid room) ∧
  (∀ room room',
     rid ≠ "" → rooms !! rid = Some room →
     NoDup (socketId <$> players room) →
     (onLeaveRoom sid rid rooms).1 !! rid = Some room' →
     ¬ isMember sid room').
Proof.
  unfold onLeaveRoom. split_and!.
  - case_bool_decide; simpl; [lia|].
    destruct (leaveStep_emits sid rid rooms) as [->|(o & room & -> & _)];
      simpl; lia.
  - intros e. case_bool_decide; simpl; [by intros ?%elem_of_nil|].
    destruct (leaveStep_emits sid rid rooms)
      as [->|(o & room & -> & Hne & _ & Hl & Ho & Hs)].
    + by intros ?%elem_of_nil.
    + intros ->%list_elem_of_singleton. by exists o, room.
  - intros room room' Hrid Hl Hnd.
    rewrite (bool_decide_eq_false_2 (rid = "")) by done.
    rewrite leaveStep_store. by apply removePlayer_gone with room.
Qed.

Lemma onLeaveRoom_outcome_witness :
  ¬ isMember "s1" Sample.roomOfO.
Proof.
  destruct (onLeaveRoom_outcome "s1" "AAAAAA" Sample.joined) as (_ & _ & H).
  apply (H Sample.freshRoom Sample.roomOfO).
  - discriminate.
  - vm_compute. reflexivity.
  - apply (bool_decide_unpack (NoDup (socketId <$> players Sample.freshRoom))).
    vm_compute. exact I.
  - vm_compute. reflexivity.
Defined.

(** X22. Whatever the order in which the store is gone through, when
    the sockets of each room are different, after the [disconnect]
    listener the socket is a player of no room; what is stored under a
    key is what [removePlayer] leaves there, so rooms the socket was not
    in are as before; and every message sent is a [player_left] for
    another socket. *)
Theorem onDisconnect_outcome (entries : list (string * Room)) (sid : string)
  (rooms : Store) :
  entries ≡ₚ map_to_list rooms →
  (∀ rid room, rooms !! rid = Some room →
     NoDup (socketId <$> players room)) →
  (∀ rid room', (onDisconnect entries sid rooms).1 !! rid = Some room' →
     ¬ isMember sid room') ∧
  (∀ rid, (onDisconnect entries sid rooms).1 !! rid =
          (removePlayer rid sid rooms).1 !! rid) ∧
  (∀ rid room, rooms !! rid = Some room → ¬ isMember sid room →
     (onDisconnect entries sid rooms).1 !! rid = Some room) ∧
  (∀ e, e ∈ (onDisconnect entries sid rooms).2 →
     ∃ o, e = ToSocket o EvPlayerLeft ∧ o ≠ sid).
Proof.
  intros Hp Hnd.
  assert (NoDup (findPlayerRooms entries sid)) as Hnd'.
  { apply findPlayerRooms_NoDup. rewrite Hp. apply NoDup_fst_map_to_list. }
  assert (∀ rid, (onDisconnect entries sid rooms).1 !! rid =
                 (removePlayer rid sid rooms).1 !! rid) as Hpt.
  { intros rid. unfold onDisconnect.
    rewrite (disconnect_loop_store sid _ rooms [] rid Hnd').
    case_decide as Hin; [done|].
    rewrite removePlayer_stranger; [done|].
    intros room Hl Hm. apply Hin, findPlayerRooms_elem.
    exists room. split; [|by apply hasPlayer_member].
    rewrite Hp. by apply elem_of_map_to_list. }
  split_and!; [|done| |].
  - intros rid room'. rewrite Hpt. intros Hl.
    destruct (rooms !! rid) as [room|] eqn:Hr.
    + by eapply (removePlayer_gone rid sid rooms room room' Hr); [eapply Hnd|].
    + rewrite removePlayer_stranger in Hl by (intros ?; congruence).
      congruence.
  - intros rid room Hl Hm. rewrite Hpt.
    rewrite removePlayer_stranger; [done|]. intros room' Hl'. congruence.
  - intros e He. unfold onDisconnect in He.
    apply disconnect_loop_emits in He as [He|He]; [|done].
    by apply elem_of_nil in He.
Qed.

Lemma onDisconnect_outcome_witness :
  (onDisconnect [("AAAAAA", Sample.freshRoom)] "s1" Sample.joined).1
    !! "AAAAAA" =
  (removePlayer "AAAAAA" "s1" Sample.joined).1 !! "AAAAAA".
Proof.
  assert (Hj : Sample.joined = {[ "AAAAAA" := Sample.freshRoom ]})
    by (vm_compute; reflexivity).
  destruct (onDisconnect_outcome [("AAAAAA", Sample.freshRoom)] "s1"
              Sample.joined) as (_ & H & _).
  - rewrite Hj, map_to_list_singleton. done.
  - rewrite Hj. intros rid room [_ <-]%lookup_singleton_Some.
    apply (bool_decide_unpack (NoDup (socketId <$> players Sample.freshRoom))).
    vm_compute. exact I.
  - apply H.
Defined.

Lemma gameStartAll_no_error (room : Room) (s : string) (code : ErrorCode) :
  ToSocket s (EvError code) ∉ gameStartAll room.
Proof.
  unfold gameStartAll. intros (p & Hp & _)%(list_elem_of_fmap (A:=Player)).
  discriminate.
Qed.

Section Creating.

Variable bcrypt_hash : string → string.

(** X18. The [create_room] listener answers the socket that asked, with
    one message: [INVALID_PASSKEY] for a pass key shorter than 4 or
    longer than 20, nothing being stored; [INTERNAL_ERROR] when the
    identifier drawn first is taken, nothing being stored either; and
    otherwise [room_created] with the identifier under which a waiting
    room with that socket as its player X is now stored. *)
Theorem onCreateRoom_outcome (rnd : nat → nat) (sid passKey : string)
  (rooms : Store) :
  (String.length passKey < 4 ∨ 20 < String.length passKey →
   onCreateRoom bcrypt_hash rnd sid passKey rooms =
     (rooms, [ToSocket sid (EvError INVALID_PASSKEY)])) ∧
  (4 ≤ String.length passKey ≤ 20 →
   is_Some (rooms !! generateRoomId rnd 0) →
   onCreateRoom bcrypt_hash rnd sid passKey rooms =
     (rooms, [ToSocket sid (EvError INTERNAL_ERROR)])) ∧
  (4 ≤ String.length passKey ≤ 20 →
   rooms !! generateRoomId rnd 0 = None →
   (onCreateRoom bcrypt_hash rnd sid passKey rooms).2 =
     [ToSocket sid (EvRoomCreated (generateRoomId rnd 0))] ∧
   ∃ room,
     (onCreateRoom bcrypt_hash rnd sid passKey rooms).1 =
       <[generateRoomId rnd 0 := room]> rooms ∧
     players room = [mkPlayer sid X] ∧ status room = waiting).
Proof.
  unfold onCreateRoom. split_and!.
  - intros Hlen. by rewrite bool_decide_eq_true_2 by tauto.
  - intros Hlen Hc. rewrite bool_decide_eq_false_2.
    + unfold createRoom. by rewrite bool_decide_eq_true_2.
    + intros [->|H]; simpl in *; lia.
  - intros Hlen Hn. rewrite bool_decide_eq_false_2.
    + destruct (createRoom_fresh bcrypt_hash rnd passKey sid rooms Hn)
        as (room & -> & Hs & Hp & _).
      cbn [fst snd]. split; [done|]. by exists room.
    + intros [->|H]; simpl in *; lia.
Qed.

End Creating.

Section Entering.

Variable bcrypt_compare : string → string → bool.

(** X19. The [join_room] listener.  (1) A payload that is [undefined]
    or [null] is answered [INTERNAL_ERROR] and the store is left as it
    is.  (2) Whatever the payload and whatever happened while
    [bcrypt.compare] ran, an error the listener sends is its only
    message and goes to the socket that asked.  (3) When the payload has
    its two fields and the room object is still stored when [joinRoom]
    resumes, no [INTERNAL_ERROR] is sent.  (4) When the room was deleted
    while [bcrypt.compare] ran and nothing is stored under its
    identifier, a join with the matching pass key is answered
    [INTERNAL_ERROR]; the store is left as it is.  (5) When the room is
    still stored and has one player, a join of another socket with the
    matching pass key (six-character identifier) puts the newcomer in
    with role O, sets the room to [playing], and sends both players a
    [game_start] with the board and the turn of the room, the player who
    was there with the role it has and the newcomer with role O.
    (6) When no listener ran meanwhile, the store the listener leaves is
    the one [joinRoom] leaves when taken as one step. *)
Theorem onJoinRoom_outcome (sid : string) (rooms : Store) :
  (∀ w,
     onJoinRoom bcrypt_compare sid Nullish rooms w =
       (rooms, [ToSocket sid (EvError INTERNAL_ERROR)])) ∧
  (∀ data w s code,
     ToSocket s (EvError code) ∈ (onJoinRoom bcrypt_compare sid data rooms w).2 →
     (onJoinRoom bcrypt_compare sid data rooms w).2 =
       [ToSocket sid (EvError code)]) ∧
  (∀ roomId passKey obj others s,
     ToSocket s (EvError INTERNAL_ERROR) ∉
       (onJoinRoom bcrypt_compare sid (Fields roomId passKey) rooms
                   (Kept obj others)).2) ∧
  (∀ rid passKey fetched obj storeNow,
     String.length rid = 6 → passKey ≠ "" →
     rooms !! rid = Some fetched →
     bcrypt_compare passKey (passKeyHash fetched) = true →
     length (players obj) < 2 →
     storeNow !! rid = None →
     onJoinRoom bcrypt_compare sid (Fields (Str rid) (Str passKey)) rooms
                (Dropped obj storeNow) =
       (storeNow, [ToSocket sid (EvError INTERNAL_ERROR)])) ∧
  (∀ rid passKey fetched obj others p,
     String.length rid = 6 → passKey ≠ "" →
     rooms !! rid = Some fetched →
     bcrypt_compare passKey (passKeyHash fetched) = true →
     players obj = [p] → socketId p ≠ sid →
     onJoinRoom bcrypt_compare sid (Fields (Str rid) (Str passKey)) rooms
                (Kept obj others) =
       (<[rid := set_status playing
                   (set_players [p; mkPlayer sid O] obj)]> others,
        [ToSocket (socketId p)
           (EvGameStart (board obj) (turn obj) (role p));
         ToSocket sid (EvGameStart (board obj) (turn obj) O)])) ∧
  (∀ rid passKey fetched,
     String.length rid = 6 → passKey ≠ "" →
     rooms !! rid = Some fetched →
     (onJoinRoom bcrypt_compare sid (Fields (Str rid) (Str passKey)) rooms
                 (undisturbed rid fetched rooms)).1 =
       (joinRoom bcrypt_compare rid passKey sid rooms).1).
Proof.
  split_and!.
  - done.
  - intros data w s code. unfold onJoinRoom.
    destruct data as [|[|rid] passKey].
    { cbn [snd]. by intros [= -> ->]%list_elem_of_singleton. }
    { cbn [snd]. by intros [= -> ->]%list_elem_of_singleton. }
    case_bool_decide.
    { cbn [snd]. by intros [= -> ->]%list_elem_of_singleton. }
    destruct passKey as [|pk].
    { cbn [snd]. by intros [= -> ->]%list_elem_of_singleton. }
    case_bool_decide.
    { cbn [snd]. by intros [= -> ->]%list_elem_of_singleton. }
    destruct (rooms !! rid) as [fetched|].
    2: { cbn [snd]. by intros [= -> ->]%list_elem_of_singleton. }
    destruct (joinRoomResumed _ _ _ _ _) as [obj [r alreadyJoined|c]].
    2: { cbn [snd]. by intros [= -> ->]%list_elem_of_singleton. }
    destruct (getRoom _ _) as [room|].
    2: { cbn [snd]. by intros [= -> ->]%list_elem_of_singleton. }
    destruct alreadyJoined.
    { cbn [snd]. intros Hin%list_elem_of_singleton. discriminate. }
    case_bool_decide; cbn [snd].
    + by intros ?%gameStartAll_no_error.
    + intros Hin%list_elem_of_singleton. discriminate.
  - intros roomId passKey obj others s. unfold onJoinRoom.
    destruct roomId as [|rid].
    { cbn [snd]. intros Hin%list_elem_of_singleton. discriminate. }
    case_bool_decide.
    { cbn [snd]. intros Hin%list_elem_of_singleton. discriminate. }
    destruct passKey as [|pk].
    { cbn [snd]. intros Hin%list_elem_of_singleton. discriminate. }
    case_bool_decide.
    { cbn [snd]. intros Hin%list_elem_of_singleton. discriminate. }
    destruct (rooms !! rid) as [fetched|].
    2: { cbn [snd]. intros Hin%list_elem_of_singleton. discriminate. }
    cbn [objectAt storeWith]. unfold joinRoomResumed, getRoom.
    destruct (negb _).
    { cbn [snd]. intros Hin%list_elem_of_singleton. discriminate. }
    case_bool_decide.
    { cbn [snd]. intros Hin%list_elem_of_singleton. discriminate. }
    destruct (findPlayer sid (players obj)) as [q|];
      rewrite lookup_insert_eq.
    + cbn [snd]. intros Hin%list_elem_of_singleton. discriminate.
    + case_bool_decide; cbn [snd].
      * by intros ?%gameStartAll_no_error.
      * intros Hin%list_elem_of_singleton. discriminate.
  - intros rid passKey fetched obj storeNow Hlen Hpk Hl Hc Hn Hs.
    unfold onJoinRoom.
    rewrite bool_decide_eq_false_2 by (intros [->|?]; [discriminate|done]).
    rewrite (bool_decide_eq_false_2 (passKey = "")) by done.
    rewrite Hl. cbn [objectAt storeWith]. unfold joinRoomResumed, getRoom.
    rewrite Hc. cbn [negb].
    rewrite (bool_decide_eq_false_2 (2 ≤ length (players obj))) by lia.
    destruct (findPlayer sid (players obj)); by rewrite Hs.
  - intros rid passKey fetched obj others p Hlen Hpk Hl Hc Hp Hne.
    unfold onJoinRoom.
    rewrite bool_decide_eq_false_2 by (intros [->|?]; [discriminate|done]).
    rewrite (bool_decide_eq_false_2 (passKey = "")) by done.
    rewrite Hl. cbn [objectAt storeWith]. unfold joinRoomResumed, getRoom.
    rewrite Hc, Hp. simpl.
    unfold findPlayer. simpl. rewrite decide_False by done. simpl.
    by rewrite lookup_insert_eq.
  - intros rid passKey fetched Hlen Hpk Hl. unfold onJoinRoom, undisturbed.
    rewrite bool_decide_eq_false_2 by (intros [->|?]; [discriminate|done]).
    rewrite (bool_decide_eq_false_2 (passKey = "")) by done.
    rewrite Hl. cbn [objectAt storeWith].
    unfold joinRoomResumed, joinRoom, getRoom. rewrite Hl.
    destruct (negb _).
    { cbn [fst]. by rewrite insert_delete_id. }
    case_bool_decide.
    { cbn [fst]. by rewrite insert_delete_id. }
    destruct (findPlayer sid (players fetched)) as [q|];
      rewrite lookup_insert_eq.
    + cbn [fst]. by rewrite insert_delete_id.
    + rewrite insert_delete_eq. by case_bool_decide.
Qed.

End Entering.

Lemma onCreateRoom_outcome_witness :
  onCreateRoom Sample.hash Sample.zeros "s1" "abc" ∅ =
    (∅, [ToSocket "s1" (EvError INVALID_PASSKEY)]) ∧
  onCreateRoom Sample.hash Sample.zeros "s9" "wxyz" Sample.created =
    (Sample.created, [ToSocket "s9" (EvError INTERNAL_ERROR)]) ∧
  (onCreateRoom Sample.hash Sample.zeros "s1" "abcd" ∅).2 =
    [ToSocket "s1" (EvRoomCreated (generateRoomId Sample.zeros 0))].
Proof.
  split_and!.
  - destruct (onCreateRoom_outcome Sample.hash Sample.zeros "s1" "abc" ∅)
      as (H & _).
    apply H. left. vm_compute. lia.
  - destruct (onCreateRoom_outcome Sample.hash Sample.zeros "s9" "wxyz"
                Sample.created) as (_ & H & _).
    apply H; [vm_compute; lia|]. vm_compute. by eexists.
  - destruct (onCreateRoom_outcome Sample.hash Sample.zeros "s1" "abcd" ∅)
      as (_ & _ & H).
    apply H; [vm_compute; lia|]. apply lookup_empty.
Defined.

Lemma onJoinRoom_outcome_witness :
  onJoinRoom Sample.compare "s2" (Fields (Str "AAAAAA") (Str "abcd"))
             Sample.created
             (Dropped (set_players [] Sample.waitingRoom)
                      (onLeaveRoom "s1" "AAAAAA" Sample.created).1) =
    ((onLeaveRoom "s1" "AAAAAA" Sample.created).1,
     [ToSocket "s2" (EvError INTERNAL_ERROR)]) ∧
  onJoinRoom Sample.compare "s2" (Fields (Str "AAAAAA") (Str "abcd"))
             Sample.created (Kept Sample.waitingRoom ∅) =
    (<[ "AAAAAA" := Sample.freshRoom ]> ∅,
     [ToSocket "s1" (EvGameStart emptyBoard X X);
      ToSocket "s2" (EvGameStart emptyBoard X O)]) ∧
  (onJoinRoom Sample.compare "s2" (Fields (Str "AAAAAA") (Str "abcd"))
              Sample.created
              (undisturbed "AAAAAA" Sample.waitingRoom Sample.created)).1 =
    Sample.joined.
Proof.
  assert (Hl : Sample.created !! "AAAAAA" = Some Sample.waitingRoom)
    by (vm_compute; reflexivity).
  assert (Hpk : "abcd" ≠ "") by discriminate.
  assert (Hne : socketId (mkPlayer "s1" X) ≠ "s2") by discriminate.
  destruct (onJoinRoom_outcome Sample.compare "s2" Sample.created)
    as (_ & _ & _ & H4 & H5 & H6).
  split_and!.
  - apply (H4 "AAAAAA" "abcd" Sample.waitingRoom
              (set_players [] Sample.waitingRoom)
              (onLeaveRoom "s1" "AAAAAA" Sample.created).1
              eq_refl Hpk Hl eq_refl).
    + cbn. lia.
    + vm_compute. reflexivity.
  - apply (H5 "AAAAAA" "abcd" Sample.waitingRoom Sample.waitingRoom ∅
              (mkPlayer "s1" X) eq_refl Hpk Hl eq_refl eq_refl Hne).
  - apply (H6 "AAAAAA" "abcd" Sample.waitingRoom eq_refl Hpk Hl).
Defined.

End HandlerExtras.

(** ** The client beside the server *)

Module ClientExtras.

Import Engine EngineFacts RoomManager ManagerFacts SocketHandler Client.

Lemma findWinningLineIn_spec (ls : list Line) (b : Board) :
  match findWinningLineIn ls b with
  | Some l =>
      l ∈ ls ∧ is_Some (lineWinner b l) ∧
      checkWinnerLines ls b = lineWinner b l
  | None => checkWinnerLines ls b = None
  end.
Proof.
  induction ls as [|l rest IH]; simpl; [done|].
  destruct (lineWinner b l) as [r|] eqn:Hl.
  - split; [left|]. rewrite Hl. split; [by eexists|done].
  - destruct (findWinningLineIn rest b) as [l'|]; [|done].
    destruct IH as (Hin & Hs & He). split; [by right|done].
Qed.

(** X23. The line the client highlights agrees with the winner the
    server announces: [findWinningLine] finds no line exactly when
    [checkWinner] finds no winner, and a line it finds is one of the
    eight lines, with its three cells holding the role that
    [checkWinner] returns. *)
Theorem findWinningLine_agrees (b : Board) :
  (findWinningLine b = None ↔ checkWinner b = None) ∧
  (∀ i j k, findWinningLine b = Some (i, j, k) →
     (i, j, k) ∈ WINNING_LINES ∧
     ∃ r, checkWinner b = Some r ∧
       b !! i = Some (Some r) ∧ b !! j = Some (Some r) ∧
       b !! k = Some (Some r)).
Proof.
  unfold findWinningLine, checkWinner.
  pose proof (findWinningLineIn_spec lines b) as H.
  change lines with WINNING_LINES in *.
  destruct (findWinningLineIn WINNING_LINES b) as [l|].
  - destruct H as (Hin & [r Hr] & He). split.
    + split; [discriminate|]. rewrite He, Hr. discriminate.
    + intros i j k [= ->]. split; [done|]. exists r.
      rewrite He. split; [done|]. by apply lineWinner_Some.
  - split; [done|]. discriminate.
Qed.

Lemma findWinningLine_agrees_witness :
  (0, 4, 8) ∈ WINNING_LINES ∧
  ∃ r, checkWinner (board Sample.diagonalOfX) = Some r ∧
    board Sample.diagonalOfX !! 0 = Some (Some r) ∧
    board Sample.diagonalOfX !! 4 = Some (Some r) ∧
    board Sample.diagonalOfX !! 8 = Some (Some r).
Proof.
  destruct (findWinningLine_agrees (board Sample.diagonalOfX)) as [_ H].
  apply H. reflexivity.
Defined.

(** X24. A client follows the server.  A client that gets the
    [game_start] of a room whose game is on holds a copy in step with
    that room; and when the [make_move] listener broadcasts a
    [board_update], a client whose copy was in step with the room is in
    step with the room as it is now stored, and takes the game to have
    ended exactly when it has. *)
Theorem client_follows_server :
  (∀ room r gs,
     status room = playing →
     inSync (receive (gameStart room r) gs) room r) ∧
  (∀ sid rid index rooms rooms' ev room gs r,
     onMakeMove sid rid index rooms = (rooms', [ToRoom rid ev]) →
     rooms !! rid = Some room → inSync gs room r →
     ∃ room',
       rooms' !! rid = Some room' ∧
       inSync (receive ev gs) room' r ∧
       (gs_status (receive ev gs) = csEnded ↔ status room' = ended)).
Proof.
  split.
  - intros room r gs Hs. unfold inSync. simpl. by split_and!.
  - intros sid rid index rooms rooms' ev room gs r Hm Hl
      (Hb & Ht & Hr & Hst).
    unfold onMakeMove in Hm.
    case_bool_decide; [discriminate|]. case_bool_decide; [discriminate|].
    unfold applyMoveToRoom in Hm. rewrite Hl in Hm.
    destruct (getPlayerRole rid sid rooms) as [r'|]; [|discriminate].
    destruct (validateMove room r' index) eqn:Hv; [|discriminate].
    apply validateMove_Valid in Hv as (Hs & _).
    apply Hst in Hs as Hgs.
    unfold applyMove in Hm. simpl in Hm.
    destruct (checkWinner _); [|destruct (checkDraw _)];
      injection Hm as <- <-; rewrite lookup_insert_eq;
      eexists; (split; [done|]); unfold inSync; simpl;
      rewrite ?Hgs, ?Hs; split_and!; try done;
      split; intros; congruence.
Qed.

Lemma client_follows_server_witness :
  inSync Sample.clientOfX Sample.freshRoom X ∧
  ∃ room',
    (applyMoveToRoom "AAAAAA" "s1" 4 Sample.joined).1 !! "AAAAAA"
      = Some room' ∧
    inSync (receive (EvBoardUpdate (board (applyMove Sample.freshRoom 4).1)
                       O NoWinner) Sample.clientOfX) room' X.
Proof.
  destruct client_follows_server as [Hstart Hmove]. split.
  - apply (Hstart Sample.freshRoom X Sample.menuState). reflexivity.
  - destruct (Hmove "s1" "AAAAAA" 4%Z Sample.joined
                (applyMoveToRoom "AAAAAA" "s1" 4 Sample.joined).1
                (EvBoardUpdate (board (applyMove Sample.freshRoom 4).1)
                   O NoWinner)
                Sample.freshRoom Sample.clientOfX X)
      as (room' & Hl & Hs & _).
    + vm_compute. reflexivity.
    + vm_compute. reflexivity.
    + apply (Hstart Sample.freshRoom X Sample.menuState). reflexivity.
    + by exists room'.
Defined.

(** X25. The check of the client agrees with the check of the server:
    for a client whose copy is in step with the room, a click on one of
    the nine cells sends [make_move] exactly when [validateMove] accepts
    that move for the client's role, and sends it for the room and the
    cell the client holds. *)
Theorem click_agrees_with_validateMove (gs : GameState) (room : Room)
  (r : Role) (index : nat) :
  inSync gs room r → index < 9 →
  (handleCellClick index gs = [MakeMove (gs_roomId gs) index] ↔
   validateMove room r (Z.of_nat index) = Valid) ∧
  (∀ rid' i, MakeMove rid' i ∈ handleCellClick index gs →
     handleCellClick index gs = [MakeMove (gs_roomId gs) index]).
Proof.
  intros (Hb & Ht & Hr & Hst) Hi.
  rewrite validateMove_Valid, Nat2Z.id. unfold handleCellClick.
  rewrite Hb, Ht, Hr.
  case_bool_decide as H1; [|case_bool_decide as H2;
                             [|case_bool_decide as H3]].
  - split.
    + split; [discriminate|]. intros (Hs & _). exfalso. apply H1.
      by apply Hst.
    + by intros ? ? ?%elem_of_nil.
  - split.
    + split; [discriminate|]. intros (_ & He & _). exfalso. apply H2.
      by rewrite He.
    + intros ? ? Hin%list_elem_of_singleton. discriminate.
  - split.
    + split; [discriminate|]. intros (_ & _ & _ & Hc). exfalso.
      by apply H3.
    + intros ? ? Hin%list_elem_of_singleton. discriminate.
  - split; [|done]. split; [|done]. intros _.
    split_and!; try lia.
    + apply Hst. by destruct (decide (gs_status gs = csPlaying)).
    + destruct (decide (turn room = r)) as [|Hne]; [done|]. exfalso.
      first [ apply H2; congruence | congruence ].
    + by destruct (decide (board room !! index = Some None)).
Qed.

Lemma click_agrees_with_validateMove_witness :
  handleCellClick 4 Sample.clientOfX = [MakeMove None 4] ↔
  validateMove Sample.freshRoom X 4 = Valid.
Proof.
  destruct (click_agrees_with_validateMove Sample.clientOfX
              Sample.freshRoom X 4) as [H _].
  - unfold inSync. split_and!; try reflexivity. by split.
  - lia.
  - exact H.
Defined.

End ClientExtras.

(** ** The game on one page beside the engine *)

Module LocalGameExtras.

Import Engine EngineFacts.

Lemma comboHolds_lineWinner (cs : list LocalGame.CellView) (player : Role)
  (l : Line) :
  LocalGame.comboHolds cs player l = true ↔
  lineWinner (LocalGame.textContent <$> cs) l = Some player.
Proof.
  destruct l as [[i j] k]. rewrite lineWinner_Some, !list_lookup_fmap.
  unfold LocalGame.comboHolds. simpl.
  rewrite !andb_true_iff, !bool_decide_eq_true. tauto.
Qed.

Lemma checkWinIn_Some (combos : list Line) (cs : list LocalGame.CellView)
  (player : Role) (l : Line) :
  LocalGame.checkWinIn combos cs player = Some l →
  l ∈ combos ∧ lineWinner (LocalGame.textContent <$> cs) l = Some player.
Proof.
  induction combos as [|c rest IH]; simpl; [discriminate|].
  destruct (LocalGame.comboHolds cs player c) eqn:Hc.
  - intros [= <-]. split; [left|]. by apply comboHolds_lineWinner.
  - intros [Hin Hl]%IH. split; [by right|done].
Qed.

Lemma checkWinIn_None (combos : list Line) (cs : list LocalGame.CellView)
  (player : Role) (l : Line) :
  LocalGame.checkWinIn combos cs player = None → l ∈ combos →
  lineWinner (LocalGame.textContent <$> cs) l ≠ Some player.
Proof.
  induction combos as [|c rest IH]; simpl; [by intros _ ?%elem_of_nil|].
  destruct (LocalGame.comboHolds cs player c) eqn:Hc; [discriminate|].
  intros Hn [->|Hin]%elem_of_cons; [|by apply IH].
  intros Hl%comboHolds_lineWinner. congruence.
Qed.

(** On a board whose winning lines all belong to [t], [checkWin] for [t]
    finds a line exactly when [checkWinner] finds a winner, who is [t]. *)
Lemma checkWin_checkWinner (cs : list LocalGame.CellView) (t : Role) :
  (∀ l r, l ∈ WINNING_LINES →
     lineWinner (LocalGame.textContent <$> cs) l = Some r → r = t) →
  match LocalGame.checkWin cs t with
  | Some _ => checkWinner (LocalGame.textContent <$> cs) = Some t
  | None => checkWinner (LocalGame.textContent <$> cs) = None
  end.
Proof.
  intros Hu. unfold LocalGame.checkWin, checkWinner.
  change LocalGame.winComb with WINNING_LINES.
  destruct (LocalGame.checkWinIn WINNING_LINES cs t) as [l|] eqn:Hw.
  - apply checkWinIn_Some in Hw as [Hin Hl].
    destruct (checkWinnerLines WINNING_LINES _) as [r|] eqn:Hc.
    + apply checkWinnerLines_Some in Hc as (l' & Hin' & Hl').
      by rewrite (Hu _ _ Hin' Hl').
    + rewrite checkWinnerLines_None in Hc. rewrite (Hc _ Hin) in Hl.
      discriminate.
  - destruct (checkWinnerLines WINNING_LINES _) as [r|] eqn:Hc; [|done].
    apply checkWinnerLines_Some in Hc as (l' & Hin' & Hl').
    pose proof (Hu _ _ Hin' Hl') as ->.
    by destruct (checkWinIn_None _ _ _ _ Hw Hin').
Qed.

Lemma textContent_addWin (n : nat) (cs : list LocalGame.CellView) :
  LocalGame.textContent <$> alter LocalGame.addWin n cs =
  LocalGame.textContent <$> cs.
Proof.
  apply list_eq. intros m. rewrite !list_lookup_fmap.
  destruct (decide (n = m)) as [->|Hne].
  - rewrite list_lookup_alter_eq. by destruct (cs !! m).
  - by rewrite list_lookup_alter_ne.
Qed.

Lemma textContent_highlightWinner (l : Line) (cs : list LocalGame.CellView) :
  LocalGame.textContent <$> LocalGame.highlightWinner l cs =
  LocalGame.textContent <$> cs.
Proof.
  destruct l as [[i j] k]. unfold LocalGame.highlightWinner.
  by rewrite !textContent_addWin.
Qed.

Lemma taken_checkDraw (cs : list LocalGame.CellView) :
  Forall (λ c, LocalGame.taken c = true ↔ LocalGame.textContent c ≠ None) cs →
  forallb LocalGame.taken cs = checkDraw (LocalGame.textContent <$> cs).
Proof.
  unfold checkDraw. induction 1 as [|c cs Hc _ IH]; simpl; [done|].
  rewrite IH. f_equal.
  destruct (LocalGame.taken c) eqn:Ht.
  - symmetry. apply bool_decide_eq_true. by apply Hc.
  - symmetry. apply bool_decide_eq_false. intros Hn. apply Hc in Hn.
    congruence.
Qed.

(** The marks after a click on a free cell, and who can have won. *)
Lemma marked_lines (b : Board) (n : nat) (t : Role) :
  n < length b → checkWinner b = None →
  ∀ l r, l ∈ WINNING_LINES →
    lineWinner (<[n := Some t]> b) l = Some r → r = t.
Proof.
  intros Hn Hw l r Hin Hl. unfold checkWinner in Hw.
  rewrite checkWinnerLines_None in Hw.
  apply EngineClaims.lineWinner_insert in Hl as [->|Hold]; [done| |done].
  rewrite (Hw _ Hin) in Hold. discriminate.
Qed.

Lemma handleClick_pageOk (i : nat) (p : LocalGame.Page) :
  pageOk p → pageOk (LocalGame.handleClick i p).
Proof.
  intros Hok. pose proof Hok as (Hlen & Hf & Hw).
  unfold LocalGame.handleClick.
  destruct (LocalGame.gameOver p) eqn:Hg; [done|].
  destruct (LocalGame.cells p !! i) as [c|] eqn:Hc; [|done].
  destruct (_ || _) eqn:Hfree; [done|].
  pose proof (lookup_lt_Some _ _ _ Hc) as Hi.
  set (c' := LocalGame.mkCellView (Some (LocalGame.turn p)) true
                (Some (LocalGame.turn p)) (LocalGame.win c)).
  assert (Forall (λ c, LocalGame.taken c = true ↔
                       LocalGame.textContent c ≠ None)
                 (<[i := c']> (LocalGame.cells p))) as Hf'.
  { apply Forall_insert; [done|]. simpl. split; [by intros _ ?|done]. }
  assert (LocalGame.textContent <$> <[i := c']> (LocalGame.cells p) =
          <[i := Some (LocalGame.turn p)]> (LocalGame.boardOf p)) as Hb
    by (by rewrite list_fmap_insert).
  pose proof (checkWin_checkWinner (<[i := c']> (LocalGame.cells p))
                (LocalGame.turn p)) as Hcw.
  rewrite Hb in Hcw.
  assert (i < length (LocalGame.boardOf p)) as Hi'
    by (unfold LocalGame.boardOf; by rewrite length_fmap).
  specialize (Hcw (marked_lines _ _ _ Hi' (Hw eq_refl))).
  destruct (LocalGame.checkWin _ _) as [[[a b] k]|].
  - split_and!; simpl; [|by repeat apply Forall_alter|done].
    by rewrite !length_alter, length_insert.
  - destruct (forallb _ _); (split_and!; simpl;
      [by rewrite length_insert|done|]); [done|].
    intros _. unfold LocalGame.boardOf. simpl. by rewrite Hb.
Qed.

Lemma reachablePage_pageOk (p : LocalGame.Page) :
  LocalGame.reachablePage p → pageOk p.
Proof.
  induction 1 as [p|i p _ IH].
  - split_and!; [done| |done].
    apply Forall_replicate. simpl. split; [discriminate|by intros ?].
  - by apply handleClick_pageOk.
Qed.

(** X26. The script that plays on one page follows the rules of the
    engine.  On every page the script can reach, showing the game of a
    room, a click on one of the nine cells does what the engine does with
    the move of the player to play: when [validateMove] accepts the move
    the page then shows the room that [applyMove] leaves, with the status
    line of its result; when it refuses, the page stays as it is. *)
Theorem local_game_follows_engine (p : LocalGame.Page) (room : Room)
  (i : nat) :
  LocalGame.reachablePage p → shows p room → i < 9 →
  (validateMove room (turn room) (Z.of_nat i) = Valid →
   shows (LocalGame.handleClick i p) (applyMove room (Z.of_nat i)).1 ∧
   LocalGame.statusLine (LocalGame.handleClick i p) =
     lineFor (applyMove room (Z.of_nat i)).2
             (turn (applyMove room (Z.of_nat i)).1)) ∧
  (validateMove room (turn room) (Z.of_nat i) ≠ Valid →
   LocalGame.handleClick i p = p).
Proof.
  intros (Hlen & Hf & Hw)%reachablePage_pageOk (Hb & Ht & Hg) Hi.
  rewrite validateMove_Valid, Nat2Z.id.
  assert (∃ c, LocalGame.cells p !! i = Some c) as [c Hc].
  { apply lookup_lt_is_Some. lia. }
  assert (board room !! i = Some (LocalGame.textContent c)) as Hcell.
  { by rewrite <- Hb; unfold LocalGame.boardOf;
      rewrite list_lookup_fmap, Hc. }
  pose proof (proj1 (Forall_lookup _ _) Hf _ _ Hc) as Htk.
  unfold LocalGame.handleClick. rewrite Hc. split.
  - intros (Hs & _ & _ & Hnull).
    rewrite (proj2 Hg Hs).
    assert (LocalGame.textContent c = None) as Hnone by congruence.
    rewrite Hnone. rewrite bool_decide_eq_false_2 by (intros H; by apply H).
    assert (LocalGame.taken c = false) as ->.
    { destruct (LocalGame.taken c) eqn:Htaken; [|done].
      by destruct (proj1 Htk Htaken). }
    cbn [orb].
    set (c' := LocalGame.mkCellView (Some (LocalGame.turn p)) true
                  (Some (LocalGame.turn p)) (LocalGame.win c)).
    assert (LocalGame.textContent <$> <[i := c']> (LocalGame.cells p) =
            <[i := Some (turn room)]> (board room)) as Hb'.
    { rewrite list_fmap_insert. simpl. by rewrite Ht, <- Hb. }
    pose proof (checkWin_checkWinner (<[i := c']> (LocalGame.cells p))
                  (LocalGame.turn p)) as Hcw.
    pose proof (taken_checkDraw (<[i := c']> (LocalGame.cells p))) as Hd.
    rewrite Hb' in Hcw, Hd. rewrite Ht in Hcw.
    assert (checkWinner (board room) = None) as Hold.
    { rewrite <- Hb. apply Hw. by apply Hg. }
    assert (i < length (board room)) as Hi' by (by eapply lookup_lt_Some).
    specialize (Hcw (marked_lines _ _ _ Hi' Hold)).
    rewrite Hd
      by (apply Forall_insert; [done|]; simpl; split; [by intros _ ?|done]).
    rewrite applyMove_insert by lia. unfold shows, LocalGame.boardOf.
    cbn [board set_board]. rewrite Nat2Z.id, Ht in *.
    destruct (LocalGame.checkWin _ _) as [l|].
    + rewrite Hcw. cbn. rewrite textContent_highlightWinner, Hb'.
      by split_and!.
    + rewrite Hcw. destruct (checkDraw _); cbn; rewrite ?Hb'; by split_and!.
  - intros Hno. destruct (LocalGame.gameOver p) eqn:Hgo; [done|].
    destruct (bool_decide (LocalGame.textContent c ≠ None)) eqn:Htext;
      [done|].
    apply bool_decide_eq_false in Htext.
    destruct Hno. split_and!; try lia.
    + by apply Hg.
    + done.
    + rewrite Hcell. f_equal.
      by destruct (decide (LocalGame.textContent c = None)).
Qed.

Lemma local_game_follows_engine_witness :
  shows (LocalGame.handleClick 4 Sample.freshPage)
        (applyMove Sample.freshRoom 4).1 ∧
  LocalGame.statusLine (LocalGame.handleClick 4 Sample.freshPage) =
    LocalGame.YourTurn O.
Proof.
  destruct (local_game_follows_engine Sample.freshPage Sample.freshRoom 4)
    as [H _].
  - apply LocalGame.reachable_init.
  - unfold shows. split_and!; try reflexivity. by split.
  - lia.
  - apply H. reflexivity.
Defined.

End LocalGameExtras.
